(** * Construction Safety Analysis API: the session protocol of backend/main.py

    A shallow embedding of the request handlers of [backend/main.py]
    ([analyze_image], [chat_about_image], [delete_session]) and of the helpers
    they call, followed by the properties of the session protocol.

    Conventions of the embedding.
    - Text that the handlers process with [strip()], [lower()], [split(",")]
      or [join] (keywords, model answers, descriptions, chat messages, prompts)
      is a Python [str] as Python has it: a list of Unicode code points, type
      [str].  [strip] and [lower] follow CPython 3.11 (Unicode 14.0): the
      whitespace set of [str.isspace], the lowercase mapping of every code
      point, the two-character lowercase of U+0130 and the final-sigma rule.
    - Text that the handlers only compare, concatenate or split at a dot
      (identifiers, paths, file names, content types, roles, base64 payloads,
      fixed messages) is a Rocq [string], the UTF-8 bytes of the [str].
    - The process-wide dict [sessions] is a [gmap string SessionData]; the
      directory of temporary images is a [gmap] from path to file content.
    - A handler is a function from the world before the request to its outcome
      (a value or the exception raised) and the world after it.  The world also
      records every payload handed to [llm.invoke], in call order.
    - What the process cannot decide is an input of the request: the answer of
      the model to a payload, the identifier drawn by [uuid.uuid4], what the
      file system and the image library do. *)

From Stdlib Require Import String Ascii List Arith NArith Lia Bool.
From stdpp Require Import base option list gmap strings.

Local Open Scope string_scope.
Local Open Scope list_scope.

(** ** Python text *)

(** A [str]: its code points. *)
Abbreviation str := (list N).

(** The [str] of an ASCII literal. *)
Fixpoint u (s : string) : str :=
  match s with
  | EmptyString => []
  | String c s' => N_of_ascii c :: u s'
  end.

(** *** Unicode data of CPython 3.11 *)

(** The code points [c] with [chr(c).isspace()]: the ones [str.strip()]
    removes. *)
Definition WHITESPACE : list N :=
  [ 9; 10; 11; 12; 13; 28; 29; 30; 31; 32; 133; 160; 5760; 8192; 8193; 8194;
    8195; 8196; 8197; 8198; 8199; 8200; 8201; 8202; 8232; 8233; 8239; 8287;
    12288 ]%N.

(** The one-to-one lowercase mappings, in runs [(first, count, stride, target)]:
    the code point [first + k * stride], for [k < count], has the lowercase
    [target + k * stride]. *)
Definition LOWER_RANGES : list (N * N * N * N) :=
  [
    (65, 26, 1, 97); (192, 23, 1, 224); (216, 7, 1, 248); (256, 24, 2, 257);
    (306, 3, 2, 307); (313, 8, 2, 314); (330, 23, 2, 331); (376, 1, 1, 255);
    (377, 3, 2, 378); (385, 1, 1, 595); (386, 2, 2, 387); (390, 1, 1, 596);
    (391, 1, 1, 392); (393, 2, 1, 598); (395, 1, 1, 396); (398, 1, 1, 477);
    (399, 1, 1, 601); (400, 1, 1, 603); (401, 1, 1, 402); (403, 1, 1, 608);
    (404, 1, 1, 611); (406, 1, 1, 617); (407, 1, 1, 616); (408, 1, 1, 409);
    (412, 1, 1, 623); (413, 1, 1, 626); (415, 1, 1, 629); (416, 3, 2, 417);
    (422, 1, 1, 640); (423, 1, 1, 424); (425, 1, 1, 643); (428, 1, 1, 429);
    (430, 1, 1, 648); (431, 1, 1, 432); (433, 2, 1, 650); (435, 2, 2, 436);
    (439, 1, 1, 658); (440, 1, 1, 441); (444, 1, 1, 445); (452, 1, 1, 454);
    (453, 1, 1, 454); (455, 1, 1, 457); (456, 1, 1, 457); (458, 1, 1, 460);
    (459, 9, 2, 460); (478, 9, 2, 479); (497, 1, 1, 499); (498, 2, 2, 499);
    (502, 1, 1, 405); (503, 1, 1, 447); (504, 20, 2, 505); (544, 1, 1, 414);
    (546, 9, 2, 547); (570, 1, 1, 11365); (571, 1, 1, 572); (573, 1, 1, 410);
    (574, 1, 1, 11366); (577, 1, 1, 578); (579, 1, 1, 384); (580, 1, 1, 649);
    (581, 1, 1, 652); (582, 5, 2, 583); (880, 2, 2, 881); (886, 1, 1, 887);
    (895, 1, 1, 1011); (902, 1, 1, 940); (904, 3, 1, 941); (908, 1, 1, 972);
    (910, 2, 1, 973); (913, 17, 1, 945); (932, 8, 1, 964); (975, 1, 1, 983);
    (984, 12, 2, 985); (1012, 1, 1, 952); (1015, 1, 1, 1016);
    (1017, 1, 1, 1010); (1018, 1, 1, 1019); (1021, 3, 1, 891);
    (1024, 16, 1, 1104); (1040, 32, 1, 1072); (1120, 17, 2, 1121);
    (1162, 27, 2, 1163); (1216, 1, 1, 1231); (1217, 7, 2, 1218);
    (1232, 48, 2, 1233); (1329, 38, 1, 1377); (4256, 38, 1, 11520);
    (4295, 1, 1, 11559); (4301, 1, 1, 11565); (5024, 80, 1, 43888);
    (5104, 6, 1, 5112); (7312, 43, 1, 4304); (7357, 3, 1, 4349);
    (7680, 75, 2, 7681); (7838, 1, 1, 223); (7840, 48, 2, 7841);
    (7944, 8, 1, 7936); (7960, 6, 1, 7952); (7976, 8, 1, 7968);
    (7992, 8, 1, 7984); (8008, 6, 1, 8000); (8025, 4, 2, 8017);
    (8040, 8, 1, 8032); (8072, 8, 1, 8064); (8088, 8, 1, 8080);
    (8104, 8, 1, 8096); (8120, 2, 1, 8112); (8122, 2, 1, 8048);
    (8124, 1, 1, 8115); (8136, 4, 1, 8050); (8140, 1, 1, 8131);
    (8152, 2, 1, 8144); (8154, 2, 1, 8054); (8168, 2, 1, 8160);
    (8170, 2, 1, 8058); (8172, 1, 1, 8165); (8184, 2, 1, 8056);
    (8186, 2, 1, 8060); (8188, 1, 1, 8179); (8486, 1, 1, 969);
    (8490, 1, 1, 107); (8491, 1, 1, 229); (8498, 1, 1, 8526);
    (8544, 16, 1, 8560); (8579, 1, 1, 8580); (9398, 26, 1, 9424);
    (11264, 48, 1, 11312); (11360, 1, 1, 11361); (11362, 1, 1, 619);
    (11363, 1, 1, 7549); (11364, 1, 1, 637); (11367, 3, 2, 11368);
    (11373, 1, 1, 593); (11374, 1, 1, 625); (11375, 1, 1, 592);
    (11376, 1, 1, 594); (11378, 1, 1, 11379); (11381, 1, 1, 11382);
    (11390, 2, 1, 575); (11392, 50, 2, 11393); (11499, 2, 2, 11500);
    (11506, 1, 1, 11507); (42560, 23, 2, 42561); (42624, 14, 2, 42625);
    (42786, 7, 2, 42787); (42802, 31, 2, 42803); (42873, 2, 2, 42874);
    (42877, 1, 1, 7545); (42878, 5, 2, 42879); (42891, 1, 1, 42892);
    (42893, 1, 1, 613); (42896, 2, 2, 42897); (42902, 10, 2, 42903);
    (42922, 1, 1, 614); (42923, 1, 1, 604); (42924, 1, 1, 609);
    (42925, 1, 1, 620); (42926, 1, 1, 618); (42928, 1, 1, 670);
    (42929, 1, 1, 647); (42930, 1, 1, 669); (42931, 1, 1, 43859);
    (42932, 8, 2, 42933); (42948, 1, 1, 42900); (42949, 1, 1, 642);
    (42950, 1, 1, 7566); (42951, 2, 2, 42952); (42960, 1, 1, 42961);
    (42966, 2, 2, 42967); (42997, 1, 1, 42998); (65313, 26, 1, 65345);
    (66560, 40, 1, 66600); (66736, 36, 1, 66776); (66928, 19, 2, 66967);
    (66929, 5, 2, 66968); (66941, 7, 2, 66980); (66957, 3, 2, 66996);
    (66965, 1, 1, 67004); (68736, 51, 1, 68800); (71840, 32, 1, 71872);
    (93760, 32, 1, 93792); (125184, 34, 1, 125218) ]%N.

(** The case-ignorable code points ([_PyUnicode_IsCaseIgnorable]), in closed
    intervals. *)
Definition CASE_IGNORABLE : list (N * N) :=
  [
    (39, 39); (46, 46); (58, 58); (94, 94); (96, 96); (168, 168); (173, 173);
    (175, 175); (180, 180); (183, 184); (688, 879); (884, 885); (890, 890);
    (900, 901); (903, 903); (1155, 1161); (1369, 1369); (1375, 1375);
    (1425, 1469); (1471, 1471); (1473, 1474); (1476, 1477); (1479, 1479);
    (1524, 1524); (1536, 1541); (1552, 1562); (1564, 1564); (1600, 1600);
    (1611, 1631); (1648, 1648); (1750, 1757); (1759, 1768); (1770, 1773);
    (1807, 1807); (1809, 1809); (1840, 1866); (1958, 1968); (2027, 2037);
    (2042, 2042); (2045, 2045); (2070, 2093); (2137, 2139); (2184, 2184);
    (2192, 2193); (2200, 2207); (2249, 2306); (2362, 2362); (2364, 2364);
    (2369, 2376); (2381, 2381); (2385, 2391); (2402, 2403); (2417, 2417);
    (2433, 2433); (2492, 2492); (2497, 2500); (2509, 2509); (2530, 2531);
    (2558, 2558); (2561, 2562); (2620, 2620); (2625, 2626); (2631, 2632);
    (2635, 2637); (2641, 2641); (2672, 2673); (2677, 2677); (2689, 2690);
    (2748, 2748); (2753, 2757); (2759, 2760); (2765, 2765); (2786, 2787);
    (2810, 2815); (2817, 2817); (2876, 2876); (2879, 2879); (2881, 2884);
    (2893, 2893); (2901, 2902); (2914, 2915); (2946, 2946); (3008, 3008);
    (3021, 3021); (3072, 3072); (3076, 3076); (3132, 3132); (3134, 3136);
    (3142, 3144); (3146, 3149); (3157, 3158); (3170, 3171); (3201, 3201);
    (3260, 3260); (3263, 3263); (3270, 3270); (3276, 3277); (3298, 3299);
    (3328, 3329); (3387, 3388); (3393, 3396); (3405, 3405); (3426, 3427);
    (3457, 3457); (3530, 3530); (3538, 3540); (3542, 3542); (3633, 3633);
    (3636, 3642); (3654, 3662); (3761, 3761); (3764, 3772); (3782, 3782);
    (3784, 3789); (3864, 3865); (3893, 3893); (3895, 3895); (3897, 3897);
    (3953, 3966); (3968, 3972); (3974, 3975); (3981, 3991); (3993, 4028);
    (4038, 4038); (4141, 4144); (4146, 4151); (4153, 4154); (4157, 4158);
    (4184, 4185); (4190, 4192); (4209, 4212); (4226, 4226); (4229, 4230);
    (4237, 4237); (4253, 4253); (4348, 4348); (4957, 4959); (5906, 5908);
    (5938, 5939); (5970, 5971); (6002, 6003); (6068, 6069); (6071, 6077);
    (6086, 6086); (6089, 6099); (6103, 6103); (6109, 6109); (6155, 6159);
    (6211, 6211); (6277, 6278); (6313, 6313); (6432, 6434); (6439, 6440);
    (6450, 6450); (6457, 6459); (6679, 6680); (6683, 6683); (6742, 6742);
    (6744, 6750); (6752, 6752); (6754, 6754); (6757, 6764); (6771, 6780);
    (6783, 6783); (6823, 6823); (6832, 6862); (6912, 6915); (6964, 6964);
    (6966, 6970); (6972, 6972); (6978, 6978); (7019, 7027); (7040, 7041);
    (7074, 7077); (7080, 7081); (7083, 7085); (7142, 7142); (7144, 7145);
    (7149, 7149); (7151, 7153); (7212, 7219); (7222, 7223); (7288, 7293);
    (7376, 7378); (7380, 7392); (7394, 7400); (7405, 7405); (7412, 7412);
    (7416, 7417); (7468, 7530); (7544, 7544); (7579, 7679); (8125, 8125);
    (8127, 8129); (8141, 8143); (8157, 8159); (8173, 8175); (8189, 8190);
    (8203, 8207); (8216, 8217); (8228, 8228); (8231, 8231); (8234, 8238);
    (8288, 8292); (8294, 8303); (8305, 8305); (8319, 8319); (8336, 8348);
    (8400, 8432); (11388, 11389); (11503, 11505); (11631, 11631);
    (11647, 11647); (11744, 11775); (11823, 11823); (12293, 12293);
    (12330, 12333); (12337, 12341); (12347, 12347); (12441, 12446);
    (12540, 12542); (40981, 40981); (42232, 42237); (42508, 42508);
    (42607, 42610); (42612, 42621); (42623, 42623); (42652, 42655);
    (42736, 42737); (42752, 42785); (42864, 42864); (42888, 42890);
    (42994, 42996); (43000, 43001); (43010, 43010); (43014, 43014);
    (43019, 43019); (43045, 43046); (43052, 43052); (43204, 43205);
    (43232, 43249); (43263, 43263); (43302, 43309); (43335, 43345);
    (43392, 43394); (43443, 43443); (43446, 43449); (43452, 43453);
    (43471, 43471); (43493, 43494); (43561, 43566); (43569, 43570);
    (43573, 43574); (43587, 43587); (43596, 43596); (43632, 43632);
    (43644, 43644); (43696, 43696); (43698, 43700); (43703, 43704);
    (43710, 43711); (43713, 43713); (43741, 43741); (43756, 43757);
    (43763, 43764); (43766, 43766); (43867, 43871); (43881, 43883);
    (44005, 44005); (44008, 44008); (44013, 44013); (64286, 64286);
    (64434, 64450); (65024, 65039); (65043, 65043); (65056, 65071);
    (65106, 65106); (65109, 65109); (65279, 65279); (65287, 65287);
    (65294, 65294); (65306, 65306); (65342, 65342); (65344, 65344);
    (65392, 65392); (65438, 65439); (65507, 65507); (65529, 65531);
    (66045, 66045); (66272, 66272); (66422, 66426); (67456, 67461);
    (67463, 67504); (67506, 67514); (68097, 68099); (68101, 68102);
    (68108, 68111); (68152, 68154); (68159, 68159); (68325, 68326);
    (68900, 68903); (69291, 69292); (69446, 69456); (69506, 69509);
    (69633, 69633); (69688, 69702); (69744, 69744); (69747, 69748);
    (69759, 69761); (69811, 69814); (69817, 69818); (69821, 69821);
    (69826, 69826); (69837, 69837); (69888, 69890); (69927, 69931);
    (69933, 69940); (70003, 70003); (70016, 70017); (70070, 70078);
    (70089, 70092); (70095, 70095); (70191, 70193); (70196, 70196);
    (70198, 70199); (70206, 70206); (70367, 70367); (70371, 70378);
    (70400, 70401); (70459, 70460); (70464, 70464); (70502, 70508);
    (70512, 70516); (70712, 70719); (70722, 70724); (70726, 70726);
    (70750, 70750); (70835, 70840); (70842, 70842); (70847, 70848);
    (70850, 70851); (71090, 71093); (71100, 71101); (71103, 71104);
    (71132, 71133); (71219, 71226); (71229, 71229); (71231, 71232);
    (71339, 71339); (71341, 71341); (71344, 71349); (71351, 71351);
    (71453, 71455); (71458, 71461); (71463, 71467); (71727, 71735);
    (71737, 71738); (71995, 71996); (71998, 71998); (72003, 72003);
    (72148, 72151); (72154, 72155); (72160, 72160); (72193, 72202);
    (72243, 72248); (72251, 72254); (72263, 72263); (72273, 72278);
    (72281, 72283); (72330, 72342); (72344, 72345); (72752, 72758);
    (72760, 72765); (72767, 72767); (72850, 72871); (72874, 72880);
    (72882, 72883); (72885, 72886); (73009, 73014); (73018, 73018);
    (73020, 73021); (73023, 73029); (73031, 73031); (73104, 73105);
    (73109, 73109); (73111, 73111); (73459, 73460); (78896, 78904);
    (92912, 92916); (92976, 92982); (92992, 92995); (94031, 94031);
    (94095, 94111); (94176, 94177); (94179, 94180); (110576, 110579);
    (110581, 110587); (110589, 110590); (113821, 113822); (113824, 113827);
    (118528, 118573); (118576, 118598); (119143, 119145); (119155, 119170);
    (119173, 119179); (119210, 119213); (119362, 119364); (121344, 121398);
    (121403, 121452); (121461, 121461); (121476, 121476); (121499, 121503);
    (121505, 121519); (122880, 122886); (122888, 122904); (122907, 122913);
    (122915, 122916); (122918, 122922); (123184, 123197); (123566, 123566);
    (123628, 123631); (125136, 125142); (125252, 125259); (127995, 127999);
    (917505, 917505); (917536, 917631); (917760, 917999) ]%N.

(** The cased code points ([_PyUnicode_IsCased]) among those that are not
    case-ignorable, in closed intervals; the final-sigma rule consults
    [_PyUnicode_IsCased] on no other code point. *)
Definition CASED_NOT_IGNORABLE : list (N * N) :=
  [
    (65, 90); (97, 122); (170, 170); (181, 181); (186, 186); (192, 214);
    (216, 246); (248, 442); (444, 447); (452, 659); (661, 687); (880, 883);
    (886, 887); (891, 893); (895, 895); (902, 902); (904, 906); (908, 908);
    (910, 929); (931, 1013); (1015, 1153); (1162, 1327); (1329, 1366);
    (1376, 1416); (4256, 4293); (4295, 4295); (4301, 4301); (4304, 4346);
    (4349, 4351); (5024, 5109); (5112, 5117); (7296, 7304); (7312, 7354);
    (7357, 7359); (7424, 7467); (7531, 7543); (7545, 7578); (7680, 7957);
    (7960, 7965); (7968, 8005); (8008, 8013); (8016, 8023); (8025, 8025);
    (8027, 8027); (8029, 8029); (8031, 8061); (8064, 8116); (8118, 8124);
    (8126, 8126); (8130, 8132); (8134, 8140); (8144, 8147); (8150, 8155);
    (8160, 8172); (8178, 8180); (8182, 8188); (8450, 8450); (8455, 8455);
    (8458, 8467); (8469, 8469); (8473, 8477); (8484, 8484); (8486, 8486);
    (8488, 8488); (8490, 8493); (8495, 8500); (8505, 8505); (8508, 8511);
    (8517, 8521); (8526, 8526); (8544, 8575); (8579, 8580); (9398, 9449);
    (11264, 11387); (11390, 11492); (11499, 11502); (11506, 11507);
    (11520, 11557); (11559, 11559); (11565, 11565); (42560, 42605);
    (42624, 42651); (42786, 42863); (42865, 42887); (42891, 42894);
    (42896, 42954); (42960, 42961); (42963, 42963); (42965, 42969);
    (42997, 42998); (43002, 43002); (43824, 43866); (43872, 43880);
    (43888, 43967); (64256, 64262); (64275, 64279); (65313, 65338);
    (65345, 65370); (66560, 66639); (66736, 66771); (66776, 66811);
    (66928, 66938); (66940, 66954); (66956, 66962); (66964, 66965);
    (66967, 66977); (66979, 66993); (66995, 67001); (67003, 67004);
    (68736, 68786); (68800, 68850); (71840, 71903); (93760, 93823);
    (119808, 119892); (119894, 119964); (119966, 119967); (119970, 119970);
    (119973, 119974); (119977, 119980); (119982, 119993); (119995, 119995);
    (119997, 120003); (120005, 120069); (120071, 120074); (120077, 120084);
    (120086, 120092); (120094, 120121); (120123, 120126); (120128, 120132);
    (120134, 120134); (120138, 120144); (120146, 120485); (120488, 120512);
    (120514, 120538); (120540, 120570); (120572, 120596); (120598, 120628);
    (120630, 120654); (120656, 120686); (120688, 120712); (120714, 120744);
    (120746, 120770); (120772, 120779); (122624, 122633); (122635, 122654);
    (125184, 125251); (127280, 127305); (127312, 127337); (127344, 127369) ]%N.

Definition expand (r : N * N * N * N) : list (N * N) :=
  let '(first, count, stride, target) := r in
  List.map (fun k => (first + N.of_nat k * stride, target + N.of_nat k * stride)%N)
           (seq 0 (N.to_nat count)).

(** The lowercase mappings, one pair per code point that has one. *)
Definition LOWER_TABLE : list (N * N) :=
  Eval vm_compute in flat_map expand LOWER_RANGES.

Fixpoint assoc (c : N) (t : list (N * N)) : option N :=
  match t with
  | [] => None
  | (k, v) :: t' => if (c =? k)%N then Some v else assoc c t'
  end.

Definition in_ranges (c : N) (t : list (N * N)) : bool :=
  existsb (fun r => ((fst r <=? c) && (c <=? snd r))%N) t.

(** ** Python string operations *)

Definition is_space (c : N) : bool := existsb (N.eqb c) WHITESPACE.

Definition IsCaseIgnorable (c : N) : bool := in_ranges c CASE_IGNORABLE.

Definition IsCased (c : N) : bool := in_ranges c CASED_NOT_IGNORABLE.

Definition SIGMA : N := 931%N.
Definition SMALL_SIGMA : N := 963%N.
Definition FINAL_SIGMA : N := 962%N.

(** The lowercase of a code point with a one-to-one mapping, the code point
    itself otherwise. *)
Definition lower_simple (c : N) : N :=
  match assoc c LOWER_TABLE with
  | Some l => l
  | None => c
  end.

(** [_PyUnicode_ToLowerFull]: U+0130 alone has a longer lowercase. *)
Definition ToLowerFull (c : N) : list N :=
  if (c =? 304)%N then [105; 775]%N else [lower_simple c].

(** The two loops of [handle_capital_sigma]: skip the case-ignorable code
    points; is the first other one cased?  [l] lists the code points in the
    order the loop reads them. *)
Fixpoint scan_cased (l : list N) : bool :=
  match l with
  | [] => false
  | c :: l' => if IsCaseIgnorable c then scan_cased l' else IsCased c
  end.

(** [handle_capital_sigma]: [before] holds the code points before the sigma,
    nearest first, [after] the ones behind it. *)
Definition handle_capital_sigma (before after : list N) : N :=
  if (scan_cased before && negb (scan_cased after))%bool
  then FINAL_SIGMA else SMALL_SIGMA.

(** [lower_ucs4] *)
Definition lower_ucs4 (before : list N) (c : N) (after : list N) : list N :=
  if (c =? SIGMA)%N then [handle_capital_sigma before after] else ToLowerFull c.

(** [do_lower]: the loop over the code points of the original text. *)
Fixpoint do_lower (before : list N) (s : str) : str :=
  match s with
  | [] => []
  | c :: after => lower_ucs4 before c after ++ do_lower (c :: before) after
  end.

(** [s.lower()] *)
Definition lower (s : str) : str := do_lower [] s.

Definition is_empty (s : str) : bool :=
  match s with [] => true | _ :: _ => false end.

(** Python truthiness of a [str]: non-empty. *)
Definition truthy (s : str) : bool := negb (is_empty s).

(** [s.lstrip()] *)
Fixpoint lstrip (s : str) : str :=
  match s with
  | [] => []
  | c :: s' => if is_space c then lstrip s' else s
  end.

(** [s.rstrip()] *)
Fixpoint rstrip (s : str) : str :=
  match s with
  | [] => []
  | c :: s' =>
      let r := rstrip s' in
      if (is_space c && is_empty r)%bool then [] else c :: r
  end.

(** [s.strip()] *)
Definition strip (s : str) : str := rstrip (lstrip s).

(** [s.split(sep)] for a one-character separator: never the empty list. *)
Fixpoint split_str (sep : N) (s : str) : list str :=
  match s with
  | [] => [[]]
  | c :: s' =>
      if (c =? sep)%N then [] :: split_str sep s'
      else match split_str sep s' with
           | h :: t => (c :: h) :: t
           | [] => [[c]]
           end
  end.

(** [sep.join(l)] *)
Fixpoint join (sep : str) (l : list str) : str :=
  match l with
  | [] => []
  | [x] => x
  | x :: l' => x ++ sep ++ join sep l'
  end.

(** [a == b] *)
Definition str_eqb (a b : str) : bool := bool_decide (a = b).

(** [c in s] for a code point [c]. *)
Definition contains_cp (c : N) (s : str) : bool := existsb (N.eqb c) s.

Definition comma : N := 44%N.
Definition dquote : str := [34%N].

(** [name.split(sep)] on a file name, for a one-character ASCII separator. *)
Fixpoint split (sep : ascii) (s : string) : list string :=
  match s with
  | EmptyString => [EmptyString]
  | String c s' =>
      if Ascii.eqb c sep then EmptyString :: split sep s'
      else match split sep s' with
           | h :: t => String c h :: t
           | [] => [String c EmptyString]
           end
  end.

(** [l[-1]] of a non-empty list, with the default for the empty one. *)
Definition last_item (l : list string) : string := List.last l EmptyString.

Definition dot : ascii := "."%char.

(** *** Checks on the Unicode data *)

(** What the proofs need of an entry [(c, l)] of the lowercase table: [l] has
    no lowercase of its own and is neither a sigma, U+0130, a comma nor
    whitespace, and [c] is neither whitespace nor a comma. *)
Definition entry_ok (e : N * N) : bool :=
  let '(c, l) := e in
  (match assoc l LOWER_TABLE with None => true | Some _ => false end
   && negb (l =? SIGMA)%N && negb (l =? 304)%N && negb (l =? comma)%N
   && negb (is_space l) && negb (is_space c) && negb (c =? comma)%N)%bool.

(** What the proofs need of a whitespace code point: it is neither
    case-ignorable nor cased, has no lowercase, and is no sigma, U+0130 or
    comma. *)
Definition whitespace_ok (c : N) : bool :=
  (negb (IsCaseIgnorable c) && negb (IsCased c)
   && match assoc c LOWER_TABLE with None => true | Some _ => false end
   && negb (c =? SIGMA)%N && negb (c =? 304)%N && negb (c =? comma)%N)%bool.

(** A code point that [lower] leaves alone wherever it stands. *)
Definition settled (c : N) : Prop :=
  c <> SIGMA /\ c <> 304%N /\ lower_simple c = c.

(** ** Data model *)

(** An entry of [chat_history]: the dict [{"role": ..., "content": ...}]. *)
Record ChatEntry := mkEntry { role : string; content : str }.

Record SessionData := mkSession {
  session_id : string;
  image_path : string;
  image_b64 : string;
  keywords : list str;
  description : str;
  chat_history : list ChatEntry
}.

Record AnalysisResponse := mkAnalysisResponse {
  resp_session_id : string;
  resp_keywords : list str;
  resp_description : str
}.

Record ChatRequest := mkChatRequest {
  req_session_id : string;
  message : str
}.

Record ChatResponse := mkChatResponse {
  response : str;
  resp_chat_history : list ChatEntry
}.

(** The multipart field [image]: FastAPI's [UploadFile].  Content type and
    file name are optional in a multipart part. *)
Record UploadFile := mkUpload {
  content_type : option string;
  filename : option string;
  file : list Byte.byte
}.

(** The message classes of [langchain_core.messages].  The source imports and
    builds [SystemMessage] and [HumanMessage]; [AIMessage] is the library's
    class for the assistant role. *)
Inductive ContentPart :=
| TextPart (text : str)
| ImageUrlPart (url : string).

Inductive MessageContent :=
| Text (s : str)
| Parts (l : list ContentPart).

Inductive Message :=
| SystemMessage (c : MessageContent)
| HumanMessage (c : MessageContent)
| AIMessage (c : MessageContent).

Inductive Exn :=
| HTTPException (status_code : nat) (detail : string)
| AttributeError
| OSError
| ImageError
| ModelError.

Inductive Result (A : Type) :=
| Ok (a : A)
| Raise (e : Exn).
Arguments Ok {A} a.
Arguments Raise {A} e.

(** The state the handlers read and write. *)
Record World := mkWorld {
  sessions : gmap string SessionData;
  temp_files : gmap string (list Byte.byte);
  llm_calls : list (list Message)
}.

(** What a request meets outside the process. *)
Record Env := mkEnv {
  (** [str(uuid.uuid4())] *)
  uuid4 : string;
  (** [llm.invoke(msgs).content]; [None] when the call raises *)
  llm_invoke : list Message -> option str;
  (** PIL: decode, convert to RGB, save as PNG, base64; [None] when it raises *)
  png_b64 : list Byte.byte -> option string;
  (** [str(TEMP_FOLDER / name)] *)
  temp_path : string -> string;
  (** whether [open(path, "wb")] succeeds *)
  can_write : string -> bool;
  (** [shutil.copyfileobj] into the opened file: [None] when it completes,
      [Some n] when it raises after [n] bytes have reached the file *)
  copy_fails_after : string -> option nat;
  (** whether [os.remove(path)] succeeds on an existing file *)
  can_remove : string -> bool
}.

(** ** Configuration *)

Definition nl : str := [10%N].

Definition SAFETY_HINTS : list str :=
  [ u "no helmet"; u "no gloves"; u "no safety vest"; u "no goggles";
    u "improper harness"; u "exposed rebar"; u "trip hazard"; u "damaged cable";
    u "blocked fire exit"; u "working at height without guardrails";
    u "unstable ladder"; u "overloaded scaffold"; u "no ear protection";
    u "improper footwear"; u "sparks near flammables"; u "poor housekeeping" ].

Definition SYSTEM_PROMPT : str :=
  u "You are a construction-safety analyst." ++ nl ++ nl ++
  u "Your task is to analyze the provided image and (optionally) a user-supplied keyword or phrase, then output a short, factual safety observation. Follow these rules:" ++ nl ++ nl ++
  u "1. Provide a concise, professional observation (1" ++ [8211%N] ++ u "2 sentences) based solely on what is clearly visible in the image." ++ nl ++
  u "2. If multiple safety conditions or issues are visible, combine them briefly while keeping the description compact and neutral." ++ nl ++
  u "3. Do not speculate or assume any details that cannot be visually confirmed." ++ nl ++
  u "4. If a keyword is provided:" ++ nl ++
  u "   - Address it **only if it aligns with visible evidence**." ++ nl ++
  u "   - If the keyword is **not supported by the image**, clearly but professionally state that the visual evidence does not match the keyword, and provide an accurate observation of what is visible instead." ++ nl ++
  u "5. Use neutral, audit-friendly language (avoid blame or judgmental wording)." ++ nl ++
  u "6. Prioritize visual evidence over the keyword when there is a conflict." ++ nl ++
  u "7. Output **plain text only** " ++ [8212%N] ++ u " no bullet points, no extra fields, no JSON." ++ nl.

(** [PROPOSAL_PROMPT.format(safety_hints=safety_hints)] *)
Definition PROPOSAL_PROMPT (safety_hints : str) : str :=
  u "From this image, propose up to 5 *likely* construction-safety observations as short keywords (e.g., " ++ dquote ++ u "no helmet" ++ dquote ++ u ", " ++ dquote ++ u "damaged cable" ++ dquote ++ u ")." ++ nl ++
  u "Only include items that seem visually plausible from the image. Return a comma-separated list of short phrases, no explanations." ++ nl ++
  u "Here are example safety phrases for inspiration (do not copy blindly): " ++ safety_hints ++ u "." ++ nl.

(** [DESCRIPTION_PROMPT.format(keywords=kw_text)] *)
Definition DESCRIPTION_PROMPT (kw_text : str) : str :=
  u "Use the image and the provided context to write a brief, audit-friendly observation description (1" ++ [8211%N] ++ u "2 sentences)." ++ nl ++
  u "Context keyword(s): " ++ kw_text ++ nl ++ nl ++
  u "Write the final description only. Do not include headings or extra commentary." ++ nl.

Definition CHAT_SYSTEM_PROMPT : str :=
  u "You are a construction-safety assistant. You have already analyzed an image and provided a safety observation." ++ nl ++
  u "Now the user has follow-up questions about the same image. Answer their questions based on what you can see in the image." ++ nl ++
  u "Be helpful, concise, and professional. Reference specific visual details when answering.".

(** ** Handlers as state-and-exception computations *)

Definition M (A : Type) : Type := World -> Result A * World.

Definition ret {A} (a : A) : M A := fun w => (Ok a, w).

Definition raise {A} (e : Exn) : M A := fun w => (Raise e, w).

Definition bind {A B} (c : M A) (k : A -> M B) : M B :=
  fun w =>
    match c w with
    | (Ok a, w') => k a w'
    | (Raise e, w') => (Raise e, w')
    end.

Notation "x <- c ;; k" := (bind c (fun x => k))
  (at level 100, c at next level, right associativity).
Notation "c ;;; k" := (bind c (fun _ => k))
  (at level 100, right associativity).

(** [llm.invoke(msgs)]: the payload is recorded, then the model answers or the
    call raises. *)
Definition invoke (env : Env) (msgs : list Message) : M str :=
  fun w =>
    let w' := mkWorld (sessions w) (temp_files w) (llm_calls w ++ [msgs]) in
    match llm_invoke env msgs with
    | Some c => (Ok c, w')
    | None => (Raise ModelError, w')
    end.

(** [with open(path, "wb") as buffer: shutil.copyfileobj(image.file, buffer)]:
    opening creates or empties the file; the copy then completes, or raises
    and leaves in the file what had been copied. *)
Definition write_file (env : Env) (path : string) (data : list Byte.byte) : M unit :=
  fun w =>
    if can_write env path
    then
      match copy_fails_after env path with
      | None =>
          (Ok tt, mkWorld (sessions w) (<[path := data]> (temp_files w)) (llm_calls w))
      | Some n =>
          (Raise OSError,
           mkWorld (sessions w) (<[path := take n data]> (temp_files w)) (llm_calls w))
      end
    else (Raise OSError, w).

(** [os.path.exists(path)] *)
Definition path_exists (path : string) : M bool :=
  fun w => (Ok (bool_decide (is_Some (temp_files w !! path))), w).

(** [os.remove(path)] *)
Definition os_remove (env : Env) (path : string) : M unit :=
  fun w =>
    match temp_files w !! path with
    | Some _ =>
        if can_remove env path
        then (Ok tt, mkWorld (sessions w) (delete path (temp_files w)) (llm_calls w))
        else (Raise OSError, w)
    | None => (Raise OSError, w)
    end.

(** [sessions[session_id] = data] *)
Definition store_session (sid : string) (data : SessionData) : M unit :=
  fun w => (Ok tt, mkWorld (<[sid := data]> (sessions w)) (temp_files w) (llm_calls w)).

(** [del sessions[session_id]] *)
Definition del_session (sid : string) : M unit :=
  fun w => (Ok tt, mkWorld (delete sid (sessions w)) (temp_files w) (llm_calls w)).

(** [sessions.get(session_id)]: the membership test and the subscript. *)
Definition lookup_session (sid : string) : M (option SessionData) :=
  fun w => (Ok (sessions w !! sid), w).

Definition image_to_b64 (env : Env) (path : string) : M string :=
  fun w =>
    match temp_files w !! path with
    | None => (Raise OSError, w)
    | Some data =>
        match png_b64 env data with
        | Some b => (Ok b, w)
        | None => (Raise ImageError, w)
        end
    end.

Definition vision_messages_from_b64 (image_b64 : string) (user_text : str)
  : list Message :=
  [ HumanMessage (Parts [ TextPart user_text;
                          ImageUrlPart ("data:image/png;base64," +:+ image_b64) ]) ].

(** The loop of [propose_keywords_from_image]:
    [for p in parts: if p not in seen: seen.add(p); out.append(p)]. *)
Fixpoint dedup_loop (parts : list str) (seen : gset str) (out : list str)
  : list str :=
  match parts with
  | [] => out
  | p :: rest =>
      if decide (p ∈ seen) then dedup_loop rest seen out
      else dedup_loop rest ({[p]} ∪ seen) (out ++ [p])
  end.

(** The parsing of the model's answer in [propose_keywords_from_image], from
    [resp.content] to the returned list. *)
Definition parse_keywords (resp_content : str) : list str :=
  let raw := strip resp_content in
  let parts :=
    List.map (fun p => lower (strip p))
             (List.filter (fun p => truthy (strip p)) (split_str comma raw)) in
  let out := dedup_loop parts ∅ [] in
  match out with
  | [] => []
  | _ :: _ => take 5 out
  end.

Definition proposal_messages (image_b64 : string) : list Message :=
  let user_text := PROPOSAL_PROMPT (join (u ", ") SAFETY_HINTS) in
  SystemMessage (Text (u "You propose concise safety keywords."))
    :: vision_messages_from_b64 image_b64 user_text.

Definition propose_keywords_from_image (env : Env) (image_b64 : string)
  : M (list str) :=
  resp_content <- invoke env (proposal_messages image_b64) ;;
  ret (parse_keywords resp_content).

Definition description_messages (image_b64 : string) (keywords : list str)
  : list Message :=
  let kw_text :=
    match keywords with
    | [] => u "none"
    | _ :: _ => join (u ", ") keywords
    end in
  let user_text := DESCRIPTION_PROMPT kw_text in
  SystemMessage (Text SYSTEM_PROMPT) :: vision_messages_from_b64 image_b64 user_text.

Definition generate_description (env : Env) (image_b64 : string)
  (keywords : list str) : M str :=
  resp_content <- invoke env (description_messages image_b64 keywords) ;;
  ret (strip resp_content).

Definition SUPPORTED_TYPES : list string := ["image/jpeg"; "image/jpg"; "image/png"].

(** [image.content_type not in ["image/jpeg", "image/jpg", "image/png"]] *)
Definition unsupported (ct : option string) : bool :=
  match ct with
  | Some t => negb (bool_decide (t ∈ SUPPORTED_TYPES))
  | None => true
  end.

(** [POST /api/analyze] *)
Definition analyze_image (env : Env) (image : UploadFile) (keyword : str)
  : M AnalysisResponse :=
  if unsupported (content_type image)
  then raise (HTTPException 400 "Only JPG and PNG images are supported")
  else
    let session_id := uuid4 env in
    name <- match filename image with
            | Some n => ret n
            | None => raise AttributeError
            end ;;
    let file_extension := last_item (split dot name) in
    let image_filename := session_id +:+ "." +:+ file_extension in
    let image_path := temp_path env image_filename in
    write_file env image_path (file image) ;;;
    image_b64 <- image_to_b64 env image_path ;;
    keywords <- (if (truthy keyword && truthy (strip keyword))%bool
                 then ret [lower (strip keyword)]
                 else propose_keywords_from_image env image_b64) ;;
    description <- generate_description env image_b64 keywords ;;
    store_session session_id
      (mkSession session_id image_path image_b64 keywords description []) ;;;
    ret (mkAnalysisResponse session_id keywords description).

(** The replay of one stored turn in [chat_about_image]. *)
Definition replay_entry (entry : ChatEntry) : Message :=
  if String.eqb (role entry) "user"
  then HumanMessage (Text (content entry))
  else SystemMessage (Text (content entry)).

Definition recap_text (session : SessionData) : str :=
  u "Initial analysis - Keywords: " ++ join (u ", ") (keywords session)
    ++ u ". Description: " ++ description session.

(** The list [messages] of [chat_about_image] at the call of [llm.invoke]. *)
Definition chat_messages (session : SessionData) (user_message : str)
  : list Message :=
  [SystemMessage (Text CHAT_SYSTEM_PROMPT)]
    ++ [HumanMessage (Text (recap_text session))]
    ++ List.map replay_entry (chat_history session)
    ++ vision_messages_from_b64 (image_b64 session) user_message.

(** The two [session.chat_history.append] calls. *)
Definition append_turn (session : SessionData) (user_message response_text : str)
  : SessionData :=
  mkSession (session_id session) (image_path session) (image_b64 session)
    (keywords session) (description session)
    (chat_history session
       ++ [mkEntry "user" user_message]
       ++ [mkEntry "assistant" response_text]).

(** [POST /api/chat] *)
Definition chat_about_image (env : Env) (request : ChatRequest) : M ChatResponse :=
  found <- lookup_session (req_session_id request) ;;
  match found with
  | None => raise (HTTPException 404 "Session not found")
  | Some session =>
      resp_content <- invoke env (chat_messages session (message request)) ;;
      let response_text := strip resp_content in
      let session' := append_turn session (message request) response_text in
      store_session (req_session_id request) session' ;;;
      ret (mkChatResponse response_text (chat_history session'))
  end.

(** [DELETE /api/session/{session_id}]; the value is the confirmation text. *)
Definition delete_session (env : Env) (sid : string) : M string :=
  found <- lookup_session sid ;;
  match found with
  | Some session =>
      present <- path_exists (image_path session) ;;
      (if present then os_remove env (image_path session) else ret tt) ;;;
      del_session sid ;;;
      ret "Session deleted successfully"
  | None => raise (HTTPException 404 "Session not found")
  end.

(** ** Requests and runs *)

Inductive Request :=
| Analyze (image : UploadFile) (keyword : str)
| Chat (request : ChatRequest)
| Delete (sid : string).

Inductive Response :=
| Analysis (r : AnalysisResponse)
| ChatReply (r : ChatResponse)
| Deleted (msg : string).

Definition lift {A B} (f : A -> B) (c : M A) : M B := a <- c ;; ret (f a).

Definition handle (env : Env) (req : Request) : M Response :=
  match req with
  | Analyze image keyword => lift Analysis (analyze_image env image keyword)
  | Chat request => lift ChatReply (chat_about_image env request)
  | Delete sid => lift Deleted (delete_session env sid)
  end.

(** The world after one request, whatever its outcome. *)
Definition after (w : World) (er : Env * Request) : World :=
  snd (handle (fst er) (snd er) w).

(** The world after a sequence of requests served one after the other. *)
Definition run (w : World) (trace : list (Env * Request)) : World :=
  fold_left after trace w.

Definition init_world : World := mkWorld ∅ ∅ [].

(** ** Vocabulary of the properties *)

(** The world once a payload has been handed to the model. *)
Definition logged (w : World) (msgs : list Message) : World :=
  mkWorld (sessions w) (temp_files w) (llm_calls w ++ [msgs]).

(** The two entries one successful chat call appends: the user's message,
    then the model's answer. *)
Definition turn_entries (t : str * str) : list ChatEntry :=
  [mkEntry "user" (fst t); mkEntry "assistant" (snd t)].

(** The image parts of a payload, in order. *)
Definition part_urls (p : ContentPart) : list string :=
  match p with
  | TextPart _ => []
  | ImageUrlPart u => [u]
  end.

Definition message_urls (m : Message) : list string :=
  match m with
  | SystemMessage (Parts l) | HumanMessage (Parts l) | AIMessage (Parts l) =>
      flat_map part_urls l
  | _ => []
  end.

Definition image_urls (msgs : list Message) : list string :=
  flat_map message_urls msgs.

(** The chat payload as the specification words it: stored user turns in the
    user role, stored assistant turns in the assistant role. *)
Definition replay_by_role (entry : ChatEntry) : Message :=
  if String.eqb (role entry) "user"
  then HumanMessage (Text (content entry))
  else AIMessage (Text (content entry)).

Definition chat_payload_by_role (session : SessionData) (user_message : str)
  : list Message :=
  SystemMessage (Text CHAT_SYSTEM_PROMPT)
    :: HumanMessage (Text (recap_text session))
    :: List.map replay_by_role (chat_history session)
    ++ [HumanMessage (Parts [ TextPart user_message;
                              ImageUrlPart ("data:image/png;base64," +:+ image_b64 session) ])].

(** The replay the handler performs on well-formed histories: assistant turns
    go out in the system role. *)
Definition replay_assistant_as_system (entry : ChatEntry) : Message :=
  if String.eqb (role entry) "assistant"
  then SystemMessage (Text (content entry))
  else HumanMessage (Text (content entry)).

Definition known_role (entry : ChatEntry) : bool :=
  (String.eqb (role entry) "user" || String.eqb (role entry) "assistant")%bool.

(** Roles alternate, the first one being [user] when [expect_user] holds. *)
Fixpoint alternates (expect_user : bool) (h : list ChatEntry) : bool :=
  match h with
  | [] => true
  | e :: rest =>
      (String.eqb (role e) (if expect_user then "user" else "assistant")
       && alternates (negb expect_user) rest)%bool
  end.

(** The request is an upload that draws the identifier [sid]. *)
Definition creates (sid : string) (er : Env * Request) : bool :=
  match snd er with
  | Analyze _ _ => String.eqb (uuid4 (fst er)) sid
  | _ => false
  end.

(** No upload of the trace draws [sid] again: identifiers are unique. *)
Definition never_redrawn (sid : string) (trace : list (Env * Request)) : bool :=
  forallb (fun er => negb (creates sid er)) trace.

Definition is_ok {A} (r : Result A) : bool :=
  match r with Ok _ => true | Raise _ => false end.

(** The request is a chat call on [sid] that succeeds in world [w]. *)
Definition chat_succeeds (sid : string) (w : World) (er : Env * Request) : bool :=
  match snd er with
  | Chat request =>
      (String.eqb (req_session_id request) sid
       && is_ok (fst (chat_about_image (fst er) request w)))%bool
  | _ => false
  end.

(** Number of successful chat calls on [sid] along a trace run from [w]. *)
Fixpoint successful_chats (sid : string) (w : World) (trace : list (Env * Request))
  : nat :=
  match trace with
  | [] => 0
  | er :: rest =>
      (if chat_succeeds sid w er then 1 else 0) + successful_chats sid (after w er) rest
  end.

(** Keyword parsing as the specification words it: every comma-separated item
    lowercased and trimmed, empty items dropped, duplicates removed keeping the
    first occurrence, at most five items kept. *)
Fixpoint dedup_first (l : list str) : list str :=
  match l with
  | [] => []
  | x :: rest => x :: List.filter (fun y => negb (str_eqb y x)) (dedup_first rest)
  end.

Definition keywords_spec (resp_content : str) : list str :=
  take 5
    (dedup_first
       (List.filter truthy
          (List.map (fun p => strip (lower p)) (split_str comma resp_content)))).

(** [s == s.lower()] *)
Definition lowercase (s : str) : Prop := lower s = s.

(** [s == s.strip()] *)
Definition trimmed (s : str) : Prop := strip s = s.

(** Two fields agree on everything a session fixes at creation. *)
Definition same_analysis (s s' : SessionData) : Prop :=
  session_id s' = session_id s /\ image_path s' = image_path s
  /\ image_b64 s' = image_b64 s /\ keywords s' = keywords s
  /\ description s' = description s.

(** ** Sample inputs *)

(** An environment in which the model gives the same ASCII answer to every
    payload and the file system and the image library never fail. *)
Definition sample_env (uuid answer : string) : Env :=
  mkEnv uuid (fun _ => Some (u answer)) (fun _ => Some "aW1n")
        (fun name => "temp_images/" +:+ name) (fun _ => true) (fun _ => None)
        (fun _ => true).

(** An environment in which every model call raises. *)
Definition failing_env (uuid : string) : Env :=
  mkEnv uuid (fun _ => None) (fun _ => Some "aW1n")
        (fun name => "temp_images/" +:+ name) (fun _ => true) (fun _ => None)
        (fun _ => true).

Definition sample_png : UploadFile :=
  mkUpload (Some "image/png") (Some "site.png") [Byte.x89; Byte.x50].

Definition sample_gif : UploadFile :=
  mkUpload (Some "image/gif") (Some "site.gif") [Byte.x47; Byte.x49].

(** The world after one upload with keyword "no helmet" drawing identifier
    "s1". *)
Definition world1 : World :=
  after init_world (sample_env "s1" " Worker without a helmet. ",
                    Analyze sample_png (u "no helmet")).

(** [world1] after one chat turn. *)
Definition world2 : World :=
  after world1 (sample_env "s2" "Yes.", Chat (mkChatRequest "s1" (u "Is it safe?"))).

(** [world1] after the image file of session "s1" has vanished from disk. *)
Definition world1_no_file : World :=
  mkWorld (sessions world1) ∅ (llm_calls world1).

(** The session of [world2]. *)
Definition session2 : SessionData :=
  mkSession "s1" "temp_images/s1.png" "aW1n" [u "no helmet"]
    (u "Worker without a helmet.")
    [mkEntry "user" (u "Is it safe?"); mkEntry "assistant" (u "Yes.")].

(** Three chat calls on "s1" after [world1], the second one failing, with a
    call on an unknown session in between. *)
Definition sample_trace : list (Env * Request) :=
  [ (sample_env "s2" "Yes.", Chat (mkChatRequest "s1" (u "Is it safe?")));
    (failing_env "s3", Chat (mkChatRequest "s1" (u "Any hazard?")));
    (sample_env "s4" "Hello.", Chat (mkChatRequest "nobody" (u "hello")));
    (sample_env "s5" " A ladder. ", Chat (mkChatRequest "s1" (u "What else?"))) ].

(** An environment in which the model gives the same answer to every payload,
    the answer being any [str]. *)
Definition answering_env (uuid : string) (answer : str) : Env :=
  mkEnv uuid (fun _ => Some answer) (fun _ => Some "aW1n")
        (fun name => "temp_images/" +:+ name) (fun _ => true) (fun _ => None)
        (fun _ => true).

(** The answer "CAFÉ, café ,<NBSP>, Trip Hazard" followed by an em space. *)
Definition cafe_answer : str :=
  u "CAF" ++ [201%N] ++ u ", caf" ++ [233%N] ++ u " ," ++ [160%N]
    ++ u ", Trip Hazard" ++ [8195%N].

(** A keyword made of a no-break space and an em space. *)
Definition blank_keyword : str := [160; 8195]%N.

(** The keyword " Échafaudage" followed by an em space. *)
Definition scaffold_keyword : str := 32%N :: 201%N :: u "chafaudage" ++ [8195%N].

(** ** Vocabulary of the further properties *)

(** [image.filename.split(".")[-1]] *)
Definition file_extension (name : string) : string := last_item (split dot name).

(** The path [analyze_image] writes the upload to. *)
Definition upload_path (env : Env) (name : string) : string :=
  temp_path env (uuid4 env +:+ "." +:+ file_extension name).

(** [c in s] for a character [c]. *)
Fixpoint contains (c : ascii) (s : string) : bool :=
  match s with
  | EmptyString => false
  | String c' s' => (Ascii.eqb c' c || contains c s')%bool
  end.

(** The user supplied a keyword: [keyword and keyword.strip()]. *)
Definition keyword_supplied (keyword : str) : bool :=
  (truthy keyword && truthy (strip keyword))%bool.

(** A keyword as a session stores it: non-empty, lowercase, trimmed. *)
Definition normal_keyword (k : str) : Prop :=
  k <> [] /\ lowercase k /\ trimmed k.

(** A keyword list as a session stores it. *)
Definition normal_keywords (ks : list str) : Prop :=
  length ks <= 5 /\ Forall normal_keyword ks /\ List.NoDup ks.

(** A payload opens with a plain-text system message and carries exactly one
    image. *)
Definition one_image_payload (p : list Message) : bool :=
  match p with
  | SystemMessage (Text _) :: _ => Nat.eqb (length (image_urls p)) 1
  | _ => false
  end.

(** The most payloads a request can hand to the model. *)
Definition call_budget (req : Request) : nat :=
  match req with
  | Analyze _ keyword => if keyword_supplied keyword then 1 else 2
  | Chat _ => 1
  | Delete _ => 0
  end.

(** An environment in which [os.remove] is refused. *)
Definition readonly_env (uuid : string) : Env :=
  mkEnv uuid (fun _ => Some (u "ok")) (fun _ => Some "aW1n")
        (fun name => "temp_images/" +:+ name) (fun _ => true) (fun _ => None)
        (fun _ => false).

(** An environment in which PIL cannot decode the upload. *)
Definition undecodable_env (uuid : string) : Env :=
  mkEnv uuid (fun _ => Some (u "ok")) (fun _ => None)
        (fun name => "temp_images/" +:+ name) (fun _ => true) (fun _ => None)
        (fun _ => true).

(** An environment in which the copy of the upload raises after one byte. *)
Definition interrupted_env (uuid : string) : Env :=
  mkEnv uuid (fun _ => Some (u "ok")) (fun _ => Some "aW1n")
        (fun name => "temp_images/" +:+ name) (fun _ => true) (fun _ => Some 1)
        (fun _ => true).

(** The world once [analyze_image] has written the upload to disk. *)
Definition written (env : Env) (image : UploadFile) (name : string) (w : World)
  : World :=
  mkWorld (sessions w) (<[upload_path env name := file image]> (temp_files w))
          (llm_calls w).

(** The world once the copy of the upload has been interrupted after [n]
    bytes. *)
Definition interrupted (env : Env) (image : UploadFile) (name : string) (n : nat)
  (w : World) : World :=
  mkWorld (sessions w)
          (<[upload_path env name := take n (file image)]> (temp_files w))
          (llm_calls w).

(** The world once [analyze_image] has stored its session. *)
Definition stored (env : Env) (name b : string) (ks : list str) (d : str)
  (w : World) : World :=
  mkWorld (<[uuid4 env := mkSession (uuid4 env) (upload_path env name) b ks d []]>
             (sessions w))
          (temp_files w) (llm_calls w).

(** The end of [analyze_image], from the call of [generate_description] on. *)
Definition describe_and_store (env : Env) (name b : string) (ks : list str)
  (w : World) : Result AnalysisResponse * World :=
  match llm_invoke env (description_messages b ks) with
  | Some d =>
      (Ok (mkAnalysisResponse (uuid4 env) ks (strip d)),
       stored env name b ks (strip d) (logged w (description_messages b ks)))
  | None => (Raise ModelError, logged w (description_messages b ks))
  end.

(** ** The helpers on concrete inputs *)

Example strip_ex : strip (160%N :: u " No Helmet " ++ [8195%N]) = u "No Helmet".
Proof. vm_compute. reflexivity. Qed.

Example lower_ex : lower (u "No Helmet-7") = u "no helmet-7".
Proof. vm_compute. reflexivity. Qed.

(** "CAFÉ" and the Greek "ΟΔΟΣ", whose last sigma is final. *)
Example lower_unicode_ex :
  lower [67; 65; 70; 201; 32; 927; 916; 927; 931]%N
  = [99; 97; 102; 233; 32; 959; 948; 959; 962]%N.
Proof. vm_compute. reflexivity. Qed.

Example split_str_ex : split_str comma (u "a,,b,") = [u "a"; []; u "b"; []].
Proof. vm_compute. reflexivity. Qed.

Example split_str_empty_ex : split_str comma [] = [[]].
Proof. reflexivity. Qed.

Example join_ex : join (u ", ") [u "a"; u "b"; u "c"] = u "a, b, c".
Proof. vm_compute. reflexivity. Qed.

Example split_ex : split dot "site.photo.png" = ["site"; "photo"; "png"].
Proof. reflexivity. Qed.

Example parse_keywords_ex :
  parse_keywords (u "No Helmet, No Helmet, Trip Hazard")
  = [u "no helmet"; u "trip hazard"].
Proof. vm_compute. reflexivity. Qed.

Example parse_keywords_blank_ex : parse_keywords (u " , ,, ") = [].
Proof. vm_compute. reflexivity. Qed.

Example world1_session_ex :
  sessions world1 !! "s1"
  = Some (mkSession "s1" "temp_images/s1.png" "aW1n" [u "no helmet"]
            (u "Worker without a helmet.") []).
Proof. vm_compute. reflexivity. Qed.

(** ** Reasoning about handlers *)

Ltac unfold_m :=
  unfold lift, generate_description, propose_keywords_from_image, bind, ret,
    raise, invoke, write_file, path_exists, os_remove, store_session,
    del_session, lookup_session, image_to_b64 in *.

Lemma bind_ok {A B} (c : M A) (k : A -> M B) w a w' :
  c w = (Ok a, w') -> bind c k w = k a w'.
Proof. intros H. unfold bind. now rewrite H. Qed.

(** ** Unknown session and unsupported upload *)

Lemma chat_absent (env : Env) (request : ChatRequest) (w : World) :
  sessions w !! req_session_id request = None ->
  chat_about_image env request w
  = (Raise (HTTPException 404 "Session not found"), w).
Proof.
  intros Hnone. unfold chat_about_image.
  rewrite (bind_ok _ _ w None w) by (unfold lookup_session; now rewrite Hnone).
  reflexivity.
Qed.

(** C8: a chat request whose [session_id] is not in the session table fails
    with HTTP 404 and leaves the whole world as it was: the session table is
    unchanged and still has no entry for that identifier, no payload is sent
    to the model, no file is touched. *)
Theorem chat_unknown_session_404 (env : Env) (request : ChatRequest) (w : World) :
  sessions w !! req_session_id request = None ->
  let outcome := chat_about_image env request w in
  fst outcome = Raise (HTTPException 404 "Session not found")
  /\ snd outcome = w
  /\ sessions (snd outcome) = sessions w
  /\ sessions (snd outcome) !! req_session_id request = None
  /\ llm_calls (snd outcome) = llm_calls w
  /\ temp_files (snd outcome) = temp_files w.
Proof.
  intros Hnone outcome. unfold outcome.
  rewrite (chat_absent env request w Hnone). cbn [fst snd].
  repeat split; try reflexivity. exact Hnone.
Qed.

Lemma chat_unknown_session_404_witness :
  fst (chat_about_image (sample_env "s9" "Yes.") (mkChatRequest "nobody" (u "hello")) world1)
  = Raise (HTTPException 404 "Session not found")
  /\ snd (chat_about_image (sample_env "s9" "Yes.") (mkChatRequest "nobody" (u "hello"))
            world1)
     = world1.
Proof.
  assert (Hnone : sessions world1 !! req_session_id (mkChatRequest "nobody" (u "hello"))
                  = None) by (vm_compute; reflexivity).
  destruct (chat_unknown_session_404 (sample_env "s9" "Yes.")
              (mkChatRequest "nobody" (u "hello")) world1 Hnone) as (H1 & H2 & _).
  split; [exact H1 | exact H2].
Defined.

Lemma unsupported_spec (ct : option string) :
  unsupported ct = false
  <-> ct = Some "image/jpeg" \/ ct = Some "image/jpg" \/ ct = Some "image/png".
Proof.
  unfold unsupported, SUPPORTED_TYPES. destruct ct as [t|].
  - rewrite negb_false_iff, bool_decide_eq_true.
    rewrite !elem_of_cons, elem_of_nil. split.
    + intros [->|[->|[->|[]]]]; auto.
    + intros [H|[H|H]]; inversion H; auto.
  - split; [discriminate | intros [H|[H|H]]; discriminate].
Qed.

(** C9: an upload whose declared content type is none of image/jpeg,
    image/jpg, image/png is refused with HTTP 400 and the world is unchanged
    (no file written, no image normalized, no model call); an upload with one
    of the three types is never refused with an HTTP error by [analyze_image]. *)
Theorem analyze_content_type_gate (env : Env) (image : UploadFile)
  (keyword : str) (w : World) :
  (content_type image <> Some "image/jpeg" ->
   content_type image <> Some "image/jpg" ->
   content_type image <> Some "image/png" ->
   analyze_image env image keyword w
   = (Raise (HTTPException 400 "Only JPG and PNG images are supported"), w))
  /\ (content_type image = Some "image/jpeg"
      \/ content_type image = Some "image/jpg"
      \/ content_type image = Some "image/png" ->
      forall code detail,
        fst (analyze_image env image keyword w) <> Raise (HTTPException code detail)).
Proof.
  split.
  - intros H1 H2 H3. unfold analyze_image.
    destruct (unsupported (content_type image)) eqn:Hu; [reflexivity|].
    apply unsupported_spec in Hu. tauto.
  - intros Hsup code detail. apply unsupported_spec in Hsup.
    unfold analyze_image. rewrite Hsup. unfold_m.
    destruct (filename image); [|discriminate].
    destruct (can_write env _); [|discriminate].
    destruct (copy_fails_after env _); [discriminate|].
    cbn [sessions temp_files llm_calls].
    rewrite lookup_insert_eq.
    destruct (png_b64 env (file image)); [|discriminate].
    destruct (truthy keyword && truthy (strip keyword))%bool; cbn;
      repeat (match goal with
              | |- context [llm_invoke env ?m] => destruct (llm_invoke env m)
              end; cbn).
    all: discriminate.
Qed.

Lemma analyze_content_type_gate_witness :
  analyze_image (sample_env "s3" "ok") sample_gif [] world1
  = (Raise (HTTPException 400 "Only JPG and PNG images are supported"), world1)
  /\ fst (analyze_image (sample_env "s3" "ok") sample_png [] world1)
     <> Raise (HTTPException 400 "Only JPG and PNG images are supported").
Proof.
  split.
  - apply (proj1 (analyze_content_type_gate (sample_env "s3" "ok") sample_gif [] world1));
      discriminate.
  - apply (proj2 (analyze_content_type_gate (sample_env "s3" "ok") sample_png [] world1)).
    right. right. reflexivity.
Defined.

(** ** What each handler does to the world *)

Lemma chat_existing (env : Env) (request : ChatRequest) (w : World)
  (session : SessionData) :
  sessions w !! req_session_id request = Some session ->
  chat_about_image env request w
  = match llm_invoke env (chat_messages session (message request)) with
    | Some c =>
        let session' := append_turn session (message request) (strip c) in
        (Ok (mkChatResponse (strip c) (chat_history session')),
         mkWorld (<[req_session_id request := session']> (sessions w))
                 (temp_files w)
                 (llm_calls w ++ [chat_messages session (message request)]))
    | None => (Raise ModelError, logged w (chat_messages session (message request)))
    end.
Proof.
  intros Hs. unfold chat_about_image.
  rewrite (bind_ok _ _ w (Some session) w) by (unfold lookup_session; now rewrite Hs).
  unfold_m. destruct (llm_invoke env _); reflexivity.
Qed.

Lemma delete_existing (env : Env) (sid : string) (w : World) (session : SessionData) :
  sessions w !! sid = Some session ->
  delete_session env sid w
  = match temp_files w !! image_path session with
    | Some _ =>
        if can_remove env (image_path session)
        then (Ok "Session deleted successfully",
              mkWorld (delete sid (sessions w))
                      (delete (image_path session) (temp_files w)) (llm_calls w))
        else (Raise OSError, w)
    | None =>
        (Ok "Session deleted successfully",
         mkWorld (delete sid (sessions w)) (temp_files w) (llm_calls w))
    end.
Proof.
  intros Hs. unfold delete_session.
  rewrite (bind_ok _ _ w (Some session) w) by (unfold lookup_session; now rewrite Hs).
  unfold_m. destruct (temp_files w !! image_path session) eqn:Hf.
  - rewrite bool_decide_eq_true_2 by eauto. rewrite Hf.
    destruct (can_remove env _); reflexivity.
  - rewrite bool_decide_eq_false_2 by (intros [? ?]; discriminate). reflexivity.
Qed.

Lemma delete_unknown (env : Env) (sid : string) (w : World) :
  sessions w !! sid = None ->
  delete_session env sid w = (Raise (HTTPException 404 "Session not found"), w).
Proof.
  intros Hs. unfold delete_session.
  rewrite (bind_ok _ _ w None w) by (unfold lookup_session; now rewrite Hs).
  reflexivity.
Qed.

(** An upload either leaves the table alone or stores one new session, with an
    empty history, under the identifier it drew. *)
Lemma analyze_sessions (env : Env) (image : UploadFile) (keyword : str) (w : World) :
  let w' := snd (analyze_image env image keyword w) in
  sessions w' = sessions w
  \/ exists p b k d,
       sessions w' = <[uuid4 env := mkSession (uuid4 env) p b k d []]> (sessions w).
Proof.
  unfold analyze_image.
  destruct (unsupported (content_type image)); [now left|].
  unfold_m. destruct (filename image); [|now left].
  destruct (can_write env _); [|now left].
  destruct (copy_fails_after env _); [now left|].
  cbn [sessions temp_files llm_calls].
  rewrite lookup_insert_eq.
  destruct (png_b64 env (file image)); [|now left].
  destruct (truthy keyword && truthy (strip keyword))%bool; cbn;
    repeat (match goal with
            | |- context [llm_invoke env ?m] => destruct (llm_invoke env m)
            end; cbn);
    try (now left); right; eauto.
Qed.

(** ** Deleting a session whose file is gone *)

(** C10: when the session exists but its temporary image file is absent from
    disk, [delete_session] skips the removal, drops the record from the table
    and returns the confirmation message; files and model log are untouched. *)
Theorem delete_with_missing_file (env : Env) (sid : string) (w : World)
  (session : SessionData) :
  sessions w !! sid = Some session ->
  temp_files w !! image_path session = None ->
  delete_session env sid w
  = (Ok "Session deleted successfully",
     mkWorld (delete sid (sessions w)) (temp_files w) (llm_calls w))
  /\ sessions (snd (delete_session env sid w)) !! sid = None.
Proof.
  intros Hs Hf. rewrite (delete_existing env sid w session Hs), Hf.
  split; [reflexivity|]. cbn. apply lookup_delete_eq.
Qed.

Lemma delete_with_missing_file_witness :
  fst (delete_session (failing_env "s9") "s1" world1_no_file)
  = Ok "Session deleted successfully".
Proof.
  assert (Hs : sessions world1_no_file !! "s1"
               = Some (mkSession "s1" "temp_images/s1.png" "aW1n" [u "no helmet"]
                         (u "Worker without a helmet.") []))
    by (vm_compute; reflexivity).
  assert (Hf : temp_files world1_no_file !! "temp_images/s1.png" = None)
    by (vm_compute; reflexivity).
  now rewrite (proj1 (delete_with_missing_file (failing_env "s9") "s1"
                        world1_no_file _ Hs Hf)).
Defined.

(** ** A failed model call *)

(** C3: when the session exists and the model call of a chat request fails,
    the failure reaches the caller and the session table is exactly what it
    was, so the session's [chat_history] has the same entries as before: the
    only trace of the request is the payload in the model log. *)
Theorem chat_failure_is_atomic (env : Env) (request : ChatRequest) (w : World)
  (session : SessionData) :
  sessions w !! req_session_id request = Some session ->
  llm_invoke env (chat_messages session (message request)) = None ->
  fst (chat_about_image env request w) = Raise ModelError
  /\ sessions (snd (chat_about_image env request w)) = sessions w
  /\ sessions (snd (chat_about_image env request w)) !! req_session_id request
     = Some session
  /\ temp_files (snd (chat_about_image env request w)) = temp_files w.
Proof.
  intros Hs Hfail. rewrite (chat_existing env request w session Hs), Hfail.
  cbn. auto.
Qed.

Lemma chat_failure_is_atomic_witness :
  fst (chat_about_image (failing_env "s9") (mkChatRequest "s1" (u "Any hazard?")) world2)
  = Raise ModelError
  /\ sessions (snd (chat_about_image (failing_env "s9")
                      (mkChatRequest "s1" (u "Any hazard?")) world2))
     = sessions world2.
Proof.
  assert (Hs : sessions world2 !! "s1"
               = Some (mkSession "s1" "temp_images/s1.png" "aW1n" [u "no helmet"]
                         (u "Worker without a helmet.")
                         [mkEntry "user" (u "Is it safe?"); mkEntry "assistant" (u "Yes.")]))
    by (vm_compute; reflexivity).
  pose proof (chat_failure_is_atomic (failing_env "s9")
                (mkChatRequest "s1" (u "Any hazard?")) world2 _ Hs eq_refl) as H.
  split; [apply H | apply H].
Defined.

(** ** Sessions along a run *)

Lemma lift_snd {A B} (f : A -> B) (c : M A) w : snd (lift f c w) = snd (c w).
Proof. unfold lift, bind, ret. now destruct (c w) as [[a|e] w']. Qed.

Lemma run_cons w er trace : run w (er :: trace) = run (after w er) trace.
Proof. reflexivity. Qed.

Lemma run_app w t1 t2 : run w (t1 ++ t2) = run (run w t1) t2.
Proof. unfold run. apply fold_left_app. Qed.

(** One request seen from one identifier: an absent session stays absent
    unless the request is an upload drawing that identifier; a present one is
    kept, removed, or extended by one turn, the last exactly when the request
    is a successful chat call on it. *)
Lemma after_lookup (w : World) (er : Env * Request) (sid : string) :
  creates sid er = false ->
  match sessions w !! sid with
  | None => sessions (after w er) !! sid = None
  | Some s =>
      if chat_succeeds sid w er
      then exists t, sessions (after w er) !! sid
                     = Some (mkSession (session_id s) (image_path s) (image_b64 s)
                               (keywords s) (description s)
                               (chat_history s ++ turn_entries t))
      else sessions (after w er) !! sid = Some s
           \/ sessions (after w er) !! sid = None
  end.
Proof.
  destruct er as [env [image keyword | request | sid']];
    unfold creates, chat_succeeds, after, handle; cbn [fst snd]; intros Hfresh;
    rewrite lift_snd.
  - (* upload *)
    apply String.eqb_neq in Hfresh.
    destruct (analyze_sessions env image keyword w) as [-> | (p & b & k & d & ->)].
    + destruct (sessions w !! sid); auto.
    + rewrite lookup_insert_ne by assumption. destruct (sessions w !! sid); auto.
  - (* chat *)
    destruct (String.eqb_spec (req_session_id request) sid) as [Heq | Hne];
      cbn [andb].
    + subst sid. destruct (sessions w !! req_session_id request) as [s|] eqn:Hs.
      * rewrite (chat_existing env request w s Hs).
        destruct (llm_invoke env _) as [c|]; cbn.
        -- exists (message request, strip c). now rewrite lookup_insert_eq.
        -- now left.
      * now rewrite (chat_absent env request w Hs).
    + destruct (sessions w !! req_session_id request) as [s|] eqn:Hs.
      * rewrite (chat_existing env request w s Hs).
        destruct (llm_invoke env _) as [c|]; cbn.
        -- rewrite lookup_insert_ne by assumption. destruct (sessions w !! sid); auto.
        -- destruct (sessions w !! sid); auto.
      * rewrite (chat_absent env request w Hs). cbn.
        destruct (sessions w !! sid); auto.
  - (* delete *)
    destruct (sessions w !! sid') as [s'|] eqn:Hs'.
    + rewrite (delete_existing env sid' w s' Hs').
      destruct (temp_files w !! image_path s'); [destruct (can_remove env _)|]; cbn;
        try (destruct (sessions w !! sid); now auto).
      all: destruct (decide (sid' = sid)) as [-> | Hne];
        [ rewrite lookup_delete_eq; destruct (sessions w !! sid); auto
        | rewrite lookup_delete_ne by assumption; destruct (sessions w !! sid); auto ].
    + rewrite (delete_unknown env sid' w Hs'). cbn. destruct (sessions w !! sid); auto.
Qed.

(** Once absent, a session stays absent as long as its identifier is not
    drawn again. *)
Lemma run_absent (sid : string) (trace : list (Env * Request)) :
  forall w, never_redrawn sid trace = true ->
            sessions w !! sid = None ->
            sessions (run w trace) !! sid = None.
Proof.
  induction trace as [|er trace IH]; intros w Hfresh Hnone; [exact Hnone|].
  cbn in Hfresh. apply andb_prop in Hfresh as [Her Hfresh].
  apply negb_true_iff in Her. rewrite run_cons. apply IH; [assumption|].
  pose proof (after_lookup w er sid Her) as H. now rewrite Hnone in H.
Qed.

(** A session that is still there after a run has kept what the analysis
    fixed, and its history is the old one followed by one turn per successful
    chat call on it. *)
Lemma run_present (sid : string) (trace : list (Env * Request)) :
  forall w s s',
    never_redrawn sid trace = true ->
    sessions w !! sid = Some s ->
    sessions (run w trace) !! sid = Some s' ->
    same_analysis s s'
    /\ exists turns,
         length turns = successful_chats sid w trace
         /\ chat_history s' = chat_history s ++ flat_map turn_entries turns.
Proof.
  induction trace as [|er trace IH]; intros w s s' Hfresh Hs Hs'.
  - cbn in Hs'. rewrite Hs in Hs'. injection Hs' as <-.
    split; [now repeat split|]. exists []. cbn. now rewrite app_nil_r.
  - cbn in Hfresh. apply andb_prop in Hfresh as [Her Hfresh].
    apply negb_true_iff in Her. rewrite run_cons in Hs'.
    pose proof (after_lookup w er sid Her) as H. rewrite Hs in H.
    cbn [successful_chats]. destruct (chat_succeeds sid w er).
    + destruct H as [t Ht].
      destruct (IH _ _ _ Hfresh Ht Hs') as [Hsame (turns & Hlen & Hhist)].
      split; [exact Hsame|]. exists (t :: turns). cbn in *. split; [lia|].
      now rewrite Hhist, <- app_assoc.
    + destruct H as [H | H].
      * destruct (IH _ _ _ Hfresh H Hs') as [Hsame (turns & Hlen & Hhist)].
        split; [exact Hsame|]. exists turns. now split.
      * rewrite (run_absent sid trace _ Hfresh H) in Hs'. discriminate.
Qed.

Lemma turns_length (turns : list (str * str)) :
  length (flat_map turn_entries turns) = 2 * length turns.
Proof. induction turns as [|t turns IH]; cbn in *; lia. Qed.

Lemma turns_alternate (turns : list (str * str)) :
  alternates true (flat_map turn_entries turns) = true.
Proof. induction turns as [|t turns IH]; [reflexivity | exact IH]. Qed.

Lemma turns_known_roles (turns : list (str * str)) :
  forallb known_role (flat_map turn_entries turns) = true.
Proof. induction turns as [|t turns IH]; [reflexivity | exact IH]. Qed.

(** Every history of a world reached from the empty table is a sequence of
    whole turns, also when an identifier is drawn twice. *)
Lemma after_whole_turns (w : World) (er : Env * Request) :
  (forall sid s, sessions w !! sid = Some s ->
                 exists turns, chat_history s = flat_map turn_entries turns) ->
  forall sid s, sessions (after w er) !! sid = Some s ->
                exists turns, chat_history s = flat_map turn_entries turns.
Proof.
  intros Inv sid s Hs.
  destruct (creates sid er) eqn:Hc.
  - destruct er as [env [image keyword | request | sid']]; try discriminate.
    unfold creates in Hc. cbn in Hc. apply String.eqb_eq in Hc.
    unfold after, handle in Hs. cbn [fst snd] in Hs. rewrite lift_snd in Hs.
    destruct (analyze_sessions env image keyword w) as [Heq | (p & b & k & d & Heq)];
      rewrite Heq in Hs.
    + eauto.
    + rewrite Hc, lookup_insert_eq in Hs. injection Hs as <-. now exists [].
  - pose proof (after_lookup w er sid Hc) as H.
    destruct (sessions w !! sid) as [s0|] eqn:Hs0; [|congruence].
    destruct (Inv sid s0 Hs0) as [turns Hturns].
    destruct (chat_succeeds sid w er).
    + destruct H as [t Ht]. rewrite Ht in Hs. injection Hs as <-. cbn.
      exists (turns ++ [t]). rewrite Hturns, flat_map_app. reflexivity.
    + destruct H as [H | H]; rewrite H in Hs; [|discriminate].
      injection Hs as <-. eauto.
Qed.

Lemma reachable_whole_turns (trace : list (Env * Request)) :
  forall sid s, sessions (run init_world trace) !! sid = Some s ->
                exists turns, chat_history s = flat_map turn_entries turns.
Proof.
  induction trace as [|er trace IH] using rev_ind.
  - intros sid s Hs. cbn in Hs. rewrite lookup_empty in Hs. discriminate.
  - rewrite run_app. cbn. apply after_whole_turns. exact IH.
Qed.

(** A successful upload leaves its session in the table, under the identifier
    it returns, with the returned keywords and description, the normalized
    image of the uploaded bytes and an empty history. *)
Lemma analyze_ok (env : Env) (image : UploadFile) (keyword : str) (w : World)
  (r : AnalysisResponse) :
  fst (analyze_image env image keyword w) = Ok r ->
  resp_session_id r = uuid4 env
  /\ exists p b,
       png_b64 env (file image) = Some b
       /\ sessions (snd (analyze_image env image keyword w)) !! uuid4 env
          = Some (mkSession (uuid4 env) p b (resp_keywords r) (resp_description r) []).
Proof.
  unfold analyze_image.
  destruct (unsupported (content_type image)); [discriminate|].
  unfold_m. destruct (filename image); [|discriminate].
  destruct (can_write env _); [|discriminate].
    destruct (copy_fails_after env _); [discriminate|].
    cbn [sessions temp_files llm_calls].
  rewrite lookup_insert_eq.
  destruct (png_b64 env (file image)) as [b|]; [|discriminate].
  destruct (truthy keyword && truthy (strip keyword))%bool; cbn;
    repeat (match goal with
            | |- context [llm_invoke env ?m] => destruct (llm_invoke env m)
            end; cbn);
    try discriminate; intros [= <-]; cbn; (split; [reflexivity|]);
    eexists _, b; (split; [reflexivity|]); now rewrite lookup_insert_eq.
Qed.

(** ** Growth of the chat history *)

(** C2: (1) in every world reached from the empty table, every session's
    [chat_history] has even length and its roles alternate strictly, starting
    with [user]; (2) a session created by a successful upload and still in the
    table after any run in which its identifier is not drawn again has a
    history of length exactly twice the number of successful chat calls made
    on it in that run, alternating from [user]; (3) one successful chat call
    appends exactly the user entry and then the assistant entry to the
    history it found, and returns that history. *)
Theorem chat_history_grows_by_pairs :
  (forall trace sid s,
      sessions (run init_world trace) !! sid = Some s ->
      Nat.Even (length (chat_history s)) /\ alternates true (chat_history s) = true)
  /\ (forall env image keyword w r trace s,
         fst (analyze_image env image keyword w) = Ok r ->
         never_redrawn (resp_session_id r) trace = true ->
         sessions (run (after w (env, Analyze image keyword)) trace)
           !! resp_session_id r = Some s ->
         length (chat_history s)
         = 2 * successful_chats (resp_session_id r)
                 (after w (env, Analyze image keyword)) trace
         /\ alternates true (chat_history s) = true)
  /\ (forall env request w session resp,
         sessions w !! req_session_id request = Some session ->
         fst (chat_about_image env request w) = Ok resp ->
         let history' :=
           chat_history session
             ++ [mkEntry "user" (message request); mkEntry "assistant" (response resp)] in
         resp_chat_history resp = history'
         /\ exists session',
              sessions (snd (chat_about_image env request w)) !! req_session_id request
              = Some session'
              /\ chat_history session' = history').
Proof.
  split; [|split].
  - intros trace sid s Hs.
    destruct (reachable_whole_turns trace sid s Hs) as [turns ->].
    split; [|apply turns_alternate].
    exists (length turns). apply turns_length.
  - intros env image keyword w r trace s Hok Hfresh Hs.
    destruct (analyze_ok env image keyword w r Hok) as [Hid (p & b & _ & Hnew)].
    assert (Hnew' : sessions (after w (env, Analyze image keyword)) !! resp_session_id r
                    = Some (mkSession (uuid4 env) p b (resp_keywords r)
                              (resp_description r) [])).
    { unfold after, handle. cbn [fst snd]. now rewrite lift_snd, Hid. }
    destruct (run_present _ trace _ _ _ Hfresh Hnew' Hs) as [_ (turns & Hlen & Hhist)].
    cbn in Hhist. rewrite Hhist, turns_length, Hlen.
    split; [reflexivity | apply turns_alternate].
  - intros env request w session resp Hs Hok.
    rewrite (chat_existing env request w session Hs) in *.
    destruct (llm_invoke env _) as [c|]; [|discriminate].
    cbn in *. injection Hok as <-. cbn. split; [reflexivity|].
    eexists. rewrite lookup_insert_eq. split; reflexivity.
Qed.

Lemma chat_history_grows_by_pairs_witness :
  exists s,
    sessions (run world1 sample_trace) !! "s1" = Some s
    /\ length (chat_history s) = 2 * 2
    /\ alternates true (chat_history s) = true.
Proof.
  eexists. split; [vm_compute; reflexivity|].
  pose proof (proj1 (proj2 chat_history_grows_by_pairs)
                (sample_env "s1" " Worker without a helmet. ") sample_png
                (u "no helmet") init_world
                (mkAnalysisResponse "s1" [u "no helmet"] (u "Worker without a helmet."))
                sample_trace) as H.
  specialize (H _ ltac:(vm_compute; reflexivity) ltac:(vm_compute; reflexivity)
                ltac:(vm_compute; reflexivity)).
  destruct H as [Hlen Halt]. split; [|exact Halt].
  rewrite Hlen. vm_compute. reflexivity.
Defined.

(** ** The payload of a chat call *)

Lemma replay_known_role (entry : ChatEntry) :
  known_role entry = true -> replay_entry entry = replay_assistant_as_system entry.
Proof.
  unfold known_role, replay_entry, replay_assistant_as_system.
  destruct (String.eqb_spec (role entry) "user") as [-> | Hu]; [reflexivity|].
  destruct (String.eqb_spec (role entry) "assistant"); [reflexivity | discriminate].
Qed.

Lemma image_urls_app (l1 l2 : list Message) :
  image_urls (l1 ++ l2) = image_urls l1 ++ image_urls l2.
Proof. apply flat_map_app. Qed.

Lemma image_urls_replay (h : list ChatEntry) :
  image_urls (List.map replay_assistant_as_system h) = [].
Proof.
  induction h as [|e h IH]; [reflexivity|].
  cbn. unfold replay_assistant_as_system at 1.
  destruct (String.eqb (role e) "assistant"); exact IH.
Qed.

(** C1, as the code has it: in every world reached from the empty table, a
    chat call on an existing session hands the model exactly this payload: the
    persona instruction as a system message; one user-role recap message
    stating the session's keywords and description; the stored turns in order,
    each user entry as a user-role message and each assistant entry as a
    system-role message; the new user message with the session's normalized
    image as a data URL.  The image occurs exactly once in the payload. *)
Theorem chat_payload_sequence (trace : list (Env * Request)) (env : Env)
  (request : ChatRequest) (session : SessionData) :
  let w := run init_world trace in
  sessions w !! req_session_id request = Some session ->
  let payload :=
    SystemMessage (Text CHAT_SYSTEM_PROMPT)
      :: HumanMessage
           (Text (u "Initial analysis - Keywords: " ++ join (u ", ") (keywords session)
                  ++ u ". Description: " ++ description session))
      :: List.map replay_assistant_as_system (chat_history session)
      ++ [HumanMessage
            (Parts [ TextPart (message request);
                     ImageUrlPart ("data:image/png;base64," +:+ image_b64 session) ])] in
  llm_calls (snd (chat_about_image env request w)) = llm_calls w ++ [payload]
  /\ image_urls payload = ["data:image/png;base64," +:+ image_b64 session].
Proof.
  intros w Hs payload. split.
  - rewrite (chat_existing env request w session Hs).
    assert (Hp : chat_messages session (message request) = payload).
    { unfold chat_messages, payload, recap_text, vision_messages_from_b64. cbn.
      do 3 f_equal. apply map_ext_in. intros e He. apply replay_known_role.
      destruct (reachable_whole_turns trace _ _ Hs) as [turns Hturns].
      pose proof (turns_known_roles turns) as Hk. rewrite <- Hturns in Hk.
      rewrite forallb_forall in Hk. now apply Hk. }
    rewrite Hp. now destruct (llm_invoke env payload).
  - unfold payload.
    change (image_urls (?a :: ?b :: ?l)) with (image_urls l).
    now rewrite image_urls_app, image_urls_replay.
Qed.

Lemma chat_payload_sequence_witness :
  image_urls
    (List.last (llm_calls (snd (chat_about_image (sample_env "s9" "No.")
                                  (mkChatRequest "s1" (u "Any hazard?")) world2))) [])
  = ["data:image/png;base64,aW1n"].
Proof.
  assert (Hs : sessions (run init_world
                           [ (sample_env "s1" " Worker without a helmet. ",
                              Analyze sample_png (u "no helmet"));
                             (sample_env "s2" "Yes.",
                              Chat (mkChatRequest "s1" (u "Is it safe?"))) ])
                 !! "s1" = Some session2)
    by (vm_compute; reflexivity).
  destruct (chat_payload_sequence _ (sample_env "s9" "No.")
              (mkChatRequest "s1" (u "Any hazard?")) session2 Hs) as [Hcalls Hurls].
  change (run init_world _) with world2 in Hcalls.
  rewrite Hcalls, last_last. exact Hurls.
Defined.

(** C1 as stated fails: with one stored turn, the payload the handler sends
    replays the assistant entry as a system message, not as an assistant
    message. *)
Lemma chat_payload_by_role_counterexample :
  sessions world2 !! "s1" = Some session2
  /\ llm_calls (snd (chat_about_image (sample_env "s9" "No.")
                       (mkChatRequest "s1" (u "Any hazard?")) world2))
     <> llm_calls world2 ++ [chat_payload_by_role session2 (u "Any hazard?")].
Proof.
  split; [vm_compute; reflexivity|].
  intros H.
  apply (f_equal (fun calls => nth_error (List.last calls []) 3)) in H.
  rewrite last_last in H. vm_compute in H. discriminate.
Qed.

(** ** Deletion is final *)

Lemma delete_ok_removes (env : Env) (sid : string) (w : World) (msg : string) :
  fst (delete_session env sid w) = Ok msg ->
  sessions (snd (delete_session env sid w)) !! sid = None.
Proof.
  destruct (sessions w !! sid) as [s|] eqn:Hs.
  - rewrite (delete_existing env sid w s Hs).
    destruct (temp_files w !! image_path s); [destruct (can_remove env _)|]; cbn;
      try discriminate; intros _; apply lookup_delete_eq.
  - rewrite (delete_unknown env sid w Hs). discriminate.
Qed.

(** C7: after a successful delete of an identifier, and after any further run
    of requests in which no upload draws that identifier again, the session is
    not in the table, a chat call on it fails with HTTP 404 and a second
    delete fails with HTTP 404, both leaving the world as it is; a delete of
    an identifier that is not in the table fails with HTTP 404 as well. *)
Theorem deleted_session_is_gone :
  (forall env sid w msg trace,
      fst (delete_session env sid w) = Ok msg ->
      never_redrawn sid trace = true ->
      let w' := run (snd (delete_session env sid w)) trace in
      sessions w' !! sid = None
      /\ (forall env' text,
             chat_about_image env' (mkChatRequest sid text) w'
             = (Raise (HTTPException 404 "Session not found"), w'))
      /\ (forall env',
             delete_session env' sid w'
             = (Raise (HTTPException 404 "Session not found"), w')))
  /\ (forall env sid w,
         sessions w !! sid = None ->
         delete_session env sid w
         = (Raise (HTTPException 404 "Session not found"), w)).
Proof.
  split.
  - intros env sid w msg trace Hok Hfresh w'.
    assert (Hnone : sessions w' !! sid = None).
    { apply run_absent; [assumption|]. eapply delete_ok_removes; eassumption. }
    split; [exact Hnone|]. split.
    + intros env' text. now apply chat_absent.
    + intros env'. now apply delete_unknown.
  - intros env sid w. apply delete_unknown.
Qed.

Lemma deleted_session_is_gone_witness :
  chat_about_image (sample_env "s9" "No.") (mkChatRequest "s1" (u "Still there?"))
    (run (snd (delete_session (sample_env "s8" "") "s1" world1)) sample_trace)
  = (Raise (HTTPException 404 "Session not found"),
     run (snd (delete_session (sample_env "s8" "") "s1" world1)) sample_trace)
  /\ delete_session (sample_env "s9" "No.") "nobody" world1
     = (Raise (HTTPException 404 "Session not found"), world1).
Proof.
  split.
  - apply (proj1 deleted_session_is_gone (sample_env "s8" "") "s1" world1
             "Session deleted successfully" sample_trace);
      vm_compute; reflexivity.
  - apply (proj2 deleted_session_is_gone). vm_compute. reflexivity.
Defined.

(** ** What the analysis fixes *)

Lemma image_urls_replay_entry (h : list ChatEntry) :
  image_urls (List.map replay_entry h) = [].
Proof.
  induction h as [|e h IH]; [reflexivity|].
  cbn. unfold replay_entry at 1.
  destruct (String.eqb (role e) "user"); exact IH.
Qed.

Lemma chat_messages_image (session : SessionData) (text : str) :
  image_urls (chat_messages session text)
  = ["data:image/png;base64," +:+ image_b64 session].
Proof.
  unfold chat_messages. rewrite !image_urls_app, image_urls_replay_entry.
  reflexivity.
Qed.

(** C6: a successful upload stores a session whose keywords and description
    are the returned ones and whose image is the normalization of the uploaded
    bytes.  After any run of chat calls, deletes and other uploads (none
    drawing the same identifier), the session, if still in the table, has the
    same identifier, image path, image payload, keywords and description: only
    [chat_history] can differ.  Every chat call on it then sends a payload
    whose only image is that same payload as a data URL. *)
Theorem analysis_is_write_once (env : Env) (image : UploadFile) (keyword : str)
  (w : World) (r : AnalysisResponse) :
  fst (analyze_image env image keyword w) = Ok r ->
  let sid := resp_session_id r in
  let w1 := after w (env, Analyze image keyword) in
  exists s0,
    sessions w1 !! sid = Some s0
    /\ keywords s0 = resp_keywords r
    /\ description s0 = resp_description r
    /\ png_b64 env (file image) = Some (image_b64 s0)
    /\ chat_history s0 = []
    /\ forall trace s,
         never_redrawn sid trace = true ->
         sessions (run w1 trace) !! sid = Some s ->
         same_analysis s0 s
         /\ forall env' text,
              exists payload,
                llm_calls (snd (chat_about_image env' (mkChatRequest sid text)
                                  (run w1 trace)))
                = llm_calls (run w1 trace) ++ [payload]
                /\ image_urls payload = ["data:image/png;base64," +:+ image_b64 s0].
Proof.
  intros Hok sid w1.
  destruct (analyze_ok env image keyword w r Hok) as [Hid (p & b & Hb & Hnew)].
  exists (mkSession (uuid4 env) p b (resp_keywords r) (resp_description r) []).
  cbn [keywords description image_b64 chat_history].
  repeat (split; [first [reflexivity | assumption
                        | unfold w1, sid, after, handle; cbn [fst snd];
                          now rewrite lift_snd, Hid]|]).
  intros trace s Hfresh Hs.
  assert (Hw1 : sessions w1 !! sid
                = Some (mkSession (uuid4 env) p b (resp_keywords r)
                          (resp_description r) [])).
  { unfold w1, sid, after, handle. cbn [fst snd]. now rewrite lift_snd, Hid. }
  destruct (run_present sid trace w1 _ s Hfresh Hw1 Hs) as [Hsame _].
  split; [exact Hsame|]. intros env' text.
  exists (chat_messages s text).
  rewrite (chat_existing env' (mkChatRequest sid text) (run w1 trace) s Hs).
  cbn [message req_session_id]. split.
  - now destruct (llm_invoke env' _).
  - rewrite chat_messages_image. destruct Hsame as (_ & _ & -> & _). reflexivity.
Qed.

Lemma analysis_is_write_once_witness :
  exists s,
    sessions (run world1 sample_trace) !! "s1" = Some s
    /\ same_analysis
         (mkSession "s1" "temp_images/s1.png" "aW1n" [u "no helmet"]
            (u "Worker without a helmet.") []) s.
Proof.
  destruct (analysis_is_write_once (sample_env "s1" " Worker without a helmet. ")
              sample_png (u "no helmet") init_world
              (mkAnalysisResponse "s1" [u "no helmet"] (u "Worker without a helmet."))
              ltac:(vm_compute; reflexivity))
    as (s0 & Hs0 & _ & _ & _ & _ & Hrun).
  assert (Heq : s0 = mkSession "s1" "temp_images/s1.png" "aW1n" [u "no helmet"]
                      (u "Worker without a helmet.") []).
  { assert (H : Some s0 = Some (mkSession "s1" "temp_images/s1.png" "aW1n"
                                  [u "no helmet"] (u "Worker without a helmet.") []))
      by (rewrite <- Hs0; vm_compute; reflexivity).
    now injection H. }
  subst s0. eexists. split; [vm_compute; reflexivity|].
  apply (Hrun sample_trace); vm_compute; reflexivity.
Defined.


(** ** Facts about the string operations *)

#[local] Arguments is_space : simpl never.
#[local] Arguments IsCaseIgnorable : simpl never.
#[local] Arguments IsCased : simpl never.
#[local] Arguments lower_simple : simpl never.

(** *** The Unicode tables *)

Lemma assoc_In (c l : N) (t : list (N * N)) : assoc c t = Some l -> In (c, l) t.
Proof.
  induction t as [|[k v] t IH]; [discriminate|].
  cbn. destruct (N.eqb_spec c k) as [-> | Hne].
  - intros [= ->]. now left.
  - intros H. right. now apply IH.
Qed.

Lemma table_ok : forallb entry_ok LOWER_TABLE = true.
Proof. vm_compute. reflexivity. Qed.

Lemma whitespace_table_ok : forallb whitespace_ok WHITESPACE = true.
Proof. vm_compute. reflexivity. Qed.

Lemma is_space_ok (c : N) : is_space c = true -> whitespace_ok c = true.
Proof.
  unfold is_space. intros H. apply existsb_exists in H as (x & Hin & Heq).
  apply N.eqb_eq in Heq. subst x.
  pose proof whitespace_table_ok as Hall. rewrite forallb_forall in Hall.
  now apply Hall.
Qed.

Lemma lower_simple_cases (c : N) :
  lower_simple c = c \/ entry_ok (c, lower_simple c) = true.
Proof.
  unfold lower_simple. destruct (assoc c LOWER_TABLE) as [l|] eqn:Hc; [|now left].
  right. apply assoc_In in Hc.
  pose proof table_ok as Hall. rewrite forallb_forall in Hall. now apply Hall.
Qed.

Ltac split_entry H :=
  unfold entry_ok in H;
  repeat (apply andb_prop in H; destruct H as [H ?]);
  repeat match goal with
         | H' : negb _ = true |- _ => apply negb_true_iff in H'
         | H' : (_ =? _)%N = false |- _ => apply N.eqb_neq in H'
         end.

Lemma lower_simple_idem (c : N) : lower_simple (lower_simple c) = lower_simple c.
Proof.
  destruct (lower_simple_cases c) as [Heq | H]; [now rewrite !Heq|].
  split_entry H. unfold lower_simple at 1.
  now destruct (assoc (lower_simple c) LOWER_TABLE).
Qed.

Lemma lower_simple_is_space (c : N) : is_space (lower_simple c) = is_space c.
Proof.
  destruct (lower_simple_cases c) as [Heq | H]; [now rewrite Heq|].
  split_entry H. congruence.
Qed.

Lemma lower_simple_special (c x : N) :
  x = SIGMA \/ x = 304%N \/ x = comma -> lower_simple c = x -> c = x.
Proof.
  intros Hx Hc. destruct (lower_simple_cases c) as [Heq | H]; [congruence|].
  split_entry H. destruct Hx as [-> | [-> | ->]]; congruence.
Qed.

Lemma lower_ucs4_settled (before : list N) (c : N) (after : list N) :
  Forall settled (lower_ucs4 before c after).
Proof.
  unfold lower_ucs4, handle_capital_sigma, ToLowerFull.
  destruct (N.eqb_spec c SIGMA) as [-> | Hs].
  - destruct (scan_cased before && negb (scan_cased after))%bool;
      repeat constructor; try discriminate; vm_compute; reflexivity.
  - destruct (N.eqb_spec c 304) as [-> | Hi].
    + repeat constructor; try discriminate; vm_compute; reflexivity.
    + repeat constructor.
      * intros H. apply Hs. eapply lower_simple_special; eauto.
      * intros H. apply Hi. eapply lower_simple_special; eauto.
      * apply lower_simple_idem.
Qed.

Lemma lower_ucs4_of_settled (before : list N) (c : N) (after : list N) :
  settled c -> lower_ucs4 before c after = [c].
Proof.
  intros (Hs & Hi & Hl). unfold lower_ucs4, ToLowerFull.
  destruct (N.eqb_spec c SIGMA); [contradiction|].
  destruct (N.eqb_spec c 304); [contradiction|]. now rewrite Hl.
Qed.

Lemma lower_ucs4_nonempty (before : list N) (c : N) (after : list N) :
  lower_ucs4 before c after <> [].
Proof.
  unfold lower_ucs4, ToLowerFull.
  destruct (c =? SIGMA)%N; [discriminate|]. destruct (c =? 304)%N; discriminate.
Qed.

Lemma lower_ucs4_space (before : list N) (c : N) (after : list N) :
  if is_space c then lower_ucs4 before c after = [c]
  else Forall (fun x => is_space x = false) (lower_ucs4 before c after).
Proof.
  destruct (is_space c) eqn:Hc.
  - apply is_space_ok in Hc. unfold whitespace_ok in Hc.
    repeat (apply andb_prop in Hc; destruct Hc as [Hc ?]).
    unfold lower_ucs4, ToLowerFull, lower_simple.
    destruct (c =? SIGMA)%N; [discriminate|]. destruct (c =? 304)%N; [discriminate|].
    now destruct (assoc c LOWER_TABLE).
  - unfold lower_ucs4, handle_capital_sigma, ToLowerFull.
    destruct (c =? SIGMA)%N.
    + destruct (scan_cased before && negb (scan_cased after))%bool;
        repeat constructor.
    + destruct (c =? 304)%N; repeat constructor.
      now rewrite lower_simple_is_space.
Qed.

Lemma lower_ucs4_comma (before : list N) (c : N) (after : list N) :
  c <> comma -> contains_cp comma (lower_ucs4 before c after) = false.
Proof.
  intros Hc. unfold lower_ucs4, handle_capital_sigma, ToLowerFull.
  destruct (c =? SIGMA)%N.
  - now destruct (scan_cased before && negb (scan_cased after))%bool.
  - destruct (c =? 304)%N; [reflexivity|].
    unfold contains_cp. cbn [existsb]. rewrite orb_false_r.
    apply N.eqb_neq. intros Heq. apply Hc.
    apply (lower_simple_special c comma); auto.
Qed.

(** *** [lower] *)

Lemma do_lower_settled (s : str) : forall before, Forall settled (do_lower before s).
Proof.
  induction s as [|c s IH]; intros before; [constructor|].
  cbn. apply Forall_app. split; [apply lower_ucs4_settled | apply IH].
Qed.

Lemma do_lower_of_settled (s : str) :
  Forall settled s -> forall before, do_lower before s = s.
Proof.
  induction 1 as [|c s Hc _ IH]; intros before; [reflexivity|].
  cbn. now rewrite lower_ucs4_of_settled, IH.
Qed.

Lemma lower_idem (s : str) : lower (lower s) = lower s.
Proof. unfold lower. apply do_lower_of_settled, do_lower_settled. Qed.

(** The text before a code point matters to [lower] only through the scan of
    [handle_capital_sigma]. *)
Lemma do_lower_context (s : str) :
  forall b1 b2, scan_cased b1 = scan_cased b2 -> do_lower b1 s = do_lower b2 s.
Proof.
  induction s as [|c s IH]; intros b1 b2 Hb; [reflexivity|].
  cbn. f_equal.
  - unfold lower_ucs4, handle_capital_sigma. now rewrite Hb.
  - apply IH. cbn. now rewrite Hb.
Qed.

Lemma is_empty_true (s : str) : is_empty s = true -> s = [].
Proof. now destruct s. Qed.

Lemma is_empty_do_lower (s : str) (before : list N) :
  is_empty (do_lower before s) = is_empty s.
Proof.
  destruct s as [|c s]; [reflexivity|]. cbn.
  pose proof (lower_ucs4_nonempty before c s).
  now destruct (lower_ucs4 before c s).
Qed.

Lemma is_empty_lower (s : str) : is_empty (lower s) = is_empty s.
Proof. apply is_empty_do_lower. Qed.

Lemma truthy_lower (s : str) : truthy (lower s) = truthy s.
Proof. unfold truthy. now rewrite is_empty_lower. Qed.

Lemma scan_cased_space (c : N) (l : list N) :
  is_space c = true -> scan_cased (c :: l) = false.
Proof.
  intros Hc. apply is_space_ok in Hc. unfold whitespace_ok in Hc.
  repeat (apply andb_prop in Hc; destruct Hc as [Hc ?]).
  cbn [scan_cased]. destruct (IsCaseIgnorable c), (IsCased c); cbn in *; congruence.
Qed.

(** *** [strip] *)

Lemma lstrip_keeps (x y : str) :
  match x with
  | c :: _ => is_space c = false
  | [] => False
  end ->
  lstrip (x ++ y) = x ++ y.
Proof. destruct x as [|c x]; [easy|]. cbn. now intros ->. Qed.

Lemma lstrip_lower (s : str) : lstrip (lower s) = lower (lstrip s).
Proof.
  unfold lower. induction s as [|c s IH]; [reflexivity|].
  cbn [do_lower lstrip]. pose proof (lower_ucs4_space [] c s) as Hsp.
  destruct (is_space c) eqn:Hc.
  - rewrite Hsp. cbn [app lstrip]. rewrite Hc.
    rewrite (do_lower_context s [c] []) by now rewrite scan_cased_space.
    exact IH.
  - apply lstrip_keeps. pose proof (lower_ucs4_nonempty [] c s).
    destruct Hsp as [|x l Hx _]; [contradiction | exact Hx].
Qed.

Lemma scan_cased_rstrip (s : str) : scan_cased (rstrip s) = scan_cased s.
Proof.
  induction s as [|c s IH]; [reflexivity|].
  cbn [rstrip]. destruct (is_space c) eqn:Hc; cbn [andb].
  - destruct (is_empty (rstrip s)).
    + now rewrite scan_cased_space.
    + now rewrite !scan_cased_space.
  - cbn. now rewrite IH.
Qed.

Lemma rstrip_app_nonempty (x y : str) :
  rstrip y <> [] -> rstrip (x ++ y) = x ++ rstrip y.
Proof.
  intros Hy. induction x as [|c x IH]; [reflexivity|].
  cbn. rewrite IH. destruct (x ++ rstrip y) eqn:Happ.
  - apply app_eq_nil in Happ as [_ ?]. contradiction.
  - now rewrite andb_false_r.
Qed.

Lemma rstrip_app_blank (x y : str) : rstrip y = [] -> rstrip (x ++ y) = rstrip x.
Proof.
  intros Hy. induction x as [|c x IH]; [exact Hy|]. cbn. now rewrite IH.
Qed.

Lemma rstrip_no_space (x : str) :
  Forall (fun c => is_space c = false) x -> rstrip x = x.
Proof.
  induction 1 as [|c x Hc _ IH]; [reflexivity|]. cbn. now rewrite Hc, IH.
Qed.

Lemma rstrip_do_lower (s : str) :
  forall before, rstrip (do_lower before s) = do_lower before (rstrip s).
Proof.
  induction s as [|c s IH]; intros before; [reflexivity|].
  cbn [do_lower rstrip]. pose proof (lower_ucs4_space before c s) as Hsp.
  destruct (is_space c && is_empty (rstrip s))%bool eqn:Hcase.
  - apply andb_prop in Hcase as [Hc He]. apply is_empty_true in He.
    rewrite Hc in Hsp. rewrite Hsp. cbn [app rstrip].
    now rewrite IH, He, Hc.
  - cbn [do_lower].
    assert (Hctx : lower_ucs4 before c (rstrip s) = lower_ucs4 before c s).
    { unfold lower_ucs4, handle_capital_sigma. now rewrite scan_cased_rstrip. }
    rewrite Hctx. destruct (is_empty (rstrip s)) eqn:He.
    + apply is_empty_true in He. rewrite andb_true_r in Hcase.
      rewrite Hcase in Hsp. rewrite He. cbn [do_lower]. rewrite app_nil_r.
      rewrite rstrip_app_blank by now rewrite IH, He.
      now apply rstrip_no_space.
    + rewrite rstrip_app_nonempty; [now rewrite IH|].
      rewrite IH. intros Hnil.
      pose proof (is_empty_do_lower (rstrip s) (c :: before)) as Hd.
      rewrite Hnil, He in Hd. discriminate.
Qed.

Lemma rstrip_lower (s : str) : rstrip (lower s) = lower (rstrip s).
Proof. apply rstrip_do_lower. Qed.

Lemma strip_lower (s : str) : strip (lower s) = lower (strip s).
Proof. unfold strip. now rewrite lstrip_lower, rstrip_lower. Qed.

Lemma lstrip_idem (s : str) : lstrip (lstrip s) = lstrip s.
Proof.
  induction s as [|c s IH]; [reflexivity|].
  cbn. destruct (is_space c) eqn:Hc; [exact IH|]. cbn. now rewrite Hc.
Qed.

Lemma rstrip_idem (s : str) : rstrip (rstrip s) = rstrip s.
Proof.
  induction s as [|c s IH]; [reflexivity|].
  cbn. destruct (is_space c && is_empty (rstrip s))%bool eqn:Hc; [reflexivity|].
  cbn. now rewrite IH, Hc.
Qed.

Lemma lstrip_rstrip (s : str) : lstrip (rstrip s) = rstrip (lstrip s).
Proof.
  induction s as [|c s IH]; [reflexivity|].
  cbn. destruct (is_space c) eqn:Hc; cbn.
  - destruct (is_empty (rstrip s)) eqn:He; cbn.
    + apply is_empty_true in He. rewrite <- IH, He. reflexivity.
    + now rewrite Hc.
  - now rewrite Hc.
Qed.

Lemma strip_idem (s : str) : strip (strip s) = strip s.
Proof.
  unfold strip. now rewrite lstrip_rstrip, lstrip_idem, rstrip_idem.
Qed.

Lemma truthy_strip (s : str) : truthy (strip s) = true -> truthy s = true.
Proof. now destruct s. Qed.

Lemma truthy_false (s : str) : truthy s = false <-> s = [].
Proof. destruct s; cbn; split; congruence. Qed.

(** *** [split] and [strip] *)

Section SplitStr.

Variable sep : N.
Hypothesis sep_not_space : is_space sep = false.

Lemma split_str_cons (s : str) : exists h t, split_str sep s = h :: t.
Proof.
  destruct s as [|c s]; cbn; [eauto|].
  destruct (c =? sep)%N; [eauto|]. destruct (split_str sep s); eauto.
Qed.

(** Leading whitespace only touches the first item of a split. *)
Lemma split_str_lstrip (s h : str) (t : list str) :
  split_str sep s = h :: t -> split_str sep (lstrip s) = lstrip h :: t.
Proof.
  revert h t. induction s as [|c s IH]; intros h t Hsplit.
  - cbn in *. now injection Hsplit as <- <-.
  - cbn in Hsplit. cbn [lstrip].
    destruct (N.eqb_spec c sep) as [-> | Hne].
    + rewrite sep_not_space. injection Hsplit as <- <-. cbn.
      now rewrite N.eqb_refl.
    + destruct (split_str_cons s) as (h' & t' & Hs'). rewrite Hs' in Hsplit.
      injection Hsplit as <- <-. cbn [lstrip].
      destruct (is_space c) eqn:Hc.
      * now apply IH.
      * cbn. rewrite Hs'. now destruct (N.eqb_spec c sep).
Qed.

(** Trailing whitespace only touches the last item of a split. *)
Lemma split_str_rstrip (s : str) :
  List.map rstrip (split_str sep (rstrip s)) = List.map rstrip (split_str sep s).
Proof.
  induction s as [|c s IH]; [reflexivity|].
  cbn [rstrip split_str].
  destruct (split_str_cons s) as (h2 & t2 & Hs2).
  destruct (split_str_cons (rstrip s)) as (h1 & t1 & Hs1).
  rewrite Hs1, Hs2 in IH. cbn in IH. injection IH as Hh Ht.
  destruct (N.eqb_spec c sep) as [-> | Hne].
  - rewrite sep_not_space. cbn. rewrite N.eqb_refl, Hs1, Hs2. cbn.
    now rewrite Hh, Ht.
  - destruct (is_space c && is_empty (rstrip s))%bool eqn:Hc.
    + apply andb_prop in Hc as [Hc He]. apply is_empty_true in He.
      rewrite He in Hs1. cbn in Hs1. injection Hs1 as <- <-.
      rewrite Hs2. cbn. rewrite Hc, <- Hh. cbn.
      destruct t2; [reflexivity | discriminate].
    + cbn [split_str]. destruct (N.eqb_spec c sep); [contradiction|].
      rewrite Hs1, Hs2. cbn. now rewrite Hh, Ht.
Qed.

(** Trimming the whole answer first does not change the trimmed items. *)
Lemma split_str_strip (s : str) :
  List.map strip (split_str sep (strip s)) = List.map strip (split_str sep s).
Proof.
  assert (Hstrip : forall l, List.map strip l = List.map lstrip (List.map rstrip l)).
  { intros l. rewrite List.map_map. apply map_ext. intros x. unfold strip.
    now rewrite lstrip_rstrip. }
  unfold strip at 2. rewrite Hstrip, split_str_rstrip, <- Hstrip.
  destruct (split_str_cons s) as (h & t & Hs).
  rewrite (split_str_lstrip s h t Hs), Hs. cbn. f_equal.
  unfold strip. now rewrite lstrip_idem.
Qed.

End SplitStr.

Create Rewrite HintDb pystr.
#[local] Hint Rewrite strip_lower lower_idem strip_idem : pystr.

Lemma str_eqb_spec (a b : str) : reflect (a = b) (str_eqb a b).
Proof. unfold str_eqb. apply bool_decide_reflect. Qed.

Lemma str_eqb_refl (a : str) : str_eqb a a = true.
Proof. now destruct (str_eqb_spec a a). Qed.

Lemma str_eqb_neq (a b : str) : str_eqb a b = false <-> a <> b.
Proof. destruct (str_eqb_spec a b); split; congruence. Qed.

(** ** The deduplication loop *)

Lemma filter_filter_comm {A} (f g : A -> bool) (l : list A) :
  List.filter f (List.filter g l) = List.filter g (List.filter f l).
Proof.
  induction l as [|x l IH]; [reflexivity|].
  cbn. destruct (f x) eqn:Hf, (g x) eqn:Hg; cbn; rewrite ?Hf, ?Hg, IH; reflexivity.
Qed.

Lemma filter_absorbs (f : str -> bool) (x : str) (l : list str) :
  f x = false ->
  List.filter f (List.filter (fun y => negb (str_eqb y x)) l) = List.filter f l.
Proof.
  intros Hx. induction l as [|y l IH]; [reflexivity|].
  cbn. destruct (str_eqb_spec y x) as [-> | Hne]; cbn.
  - now rewrite Hx.
  - now rewrite IH.
Qed.

Lemma dedup_first_filter (f : str -> bool) (l : list str) :
  dedup_first (List.filter f l) = List.filter f (dedup_first l).
Proof.
  induction l as [|x l IH]; [reflexivity|].
  cbn. destruct (f x) eqn:Hx; cbn.
  - now rewrite IH, filter_filter_comm.
  - now rewrite IH, filter_absorbs.
Qed.

Lemma filter_seen_add (p : str) (seen : gset str) (l : list str) :
  List.filter (fun y => negb (bool_decide (y ∈ {[p]} ∪ seen))) l
  = List.filter (fun y => negb (str_eqb y p))
      (List.filter (fun y => negb (bool_decide (y ∈ seen))) l).
Proof.
  induction l as [|y l IH]; [reflexivity|].
  cbn. destruct (decide (y ∈ seen)) as [Hin | Hout].
  - rewrite (bool_decide_eq_true_2 (y ∈ seen)) by assumption.
    rewrite bool_decide_eq_true_2 by set_solver. cbn. exact IH.
  - rewrite (bool_decide_eq_false_2 (y ∈ seen)) by assumption. cbn.
    destruct (str_eqb_spec y p) as [-> | Hne]; cbn.
    + rewrite bool_decide_eq_true_2 by set_solver. cbn. exact IH.
    + rewrite bool_decide_eq_false_2
        by (rewrite elem_of_union, elem_of_singleton; tauto).
      cbn. now rewrite IH.
Qed.

(** The loop keeps the first occurrence of every item, in order. *)
Lemma dedup_loop_spec (parts : list str) :
  forall seen out,
    dedup_loop parts seen out
    = out ++ dedup_first
               (List.filter (fun p => negb (bool_decide (p ∈ seen))) parts).
Proof.
  induction parts as [|p parts IH]; intros seen out; cbn.
  - now rewrite app_nil_r.
  - destruct (decide (p ∈ seen)) as [Hin | Hout].
    + rewrite bool_decide_eq_true_2 by assumption. cbn. apply IH.
    + rewrite bool_decide_eq_false_2 by assumption. cbn.
      rewrite IH, <- app_assoc. cbn. do 2 f_equal.
      now rewrite filter_seen_add, dedup_first_filter.
Qed.

Lemma dedup_loop_first (parts : list str) :
  dedup_loop parts ∅ [] = dedup_first parts.
Proof.
  rewrite dedup_loop_spec. cbn. f_equal.
  induction parts as [|p parts IH]; [reflexivity|].
  cbn. rewrite bool_decide_eq_false_2 by set_solver. cbn. now rewrite IH.
Qed.

Lemma dedup_first_In (x : str) (l : list str) :
  In x (dedup_first l) -> In x l.
Proof.
  induction l as [|y l IH]; [easy|].
  cbn. intros [-> | Hin]; [now left|].
  apply filter_In in Hin as [Hin _]. right. now apply IH.
Qed.

Lemma dedup_first_NoDup (l : list str) : List.NoDup (dedup_first l).
Proof.
  induction l as [|y l IH]; cbn; constructor.
  - intros Hin. apply filter_In in Hin as [_ Hne].
    now rewrite str_eqb_refl in Hne.
  - now apply List.NoDup_filter.
Qed.

Lemma take_In (x : str) (n : nat) (l : list str) : In x (take n l) -> In x l.
Proof.
  revert l; induction n as [|n IH]; intros [|y l]; cbn; try easy.
  intros [-> | Hin]; [now left | right; now apply IH].
Qed.

Lemma take_NoDup (n : nat) (l : list str) : List.NoDup l -> List.NoDup (take n l).
Proof.
  intros Hl. revert n. induction Hl as [|y l Hy Hl IH]; intros [|n]; cbn;
    try constructor.
  - intros Hin. apply Hy. eapply take_In; eassumption.
  - apply IH.
Qed.

(** The parsing of the handler is the parsing the specification words. *)
Lemma parse_keywords_spec (resp_content : str) :
  parse_keywords resp_content = keywords_spec resp_content.
Proof.
  unfold parse_keywords, keywords_spec. rewrite dedup_loop_first.
  assert (Hparts :
    List.map (fun p => lower (strip p))
      (List.filter (fun p => truthy (strip p)) (split_str comma (strip resp_content)))
    = List.filter truthy
        (List.map (fun p => strip (lower p)) (split_str comma resp_content))).
  { transitivity
      (List.filter truthy
         (List.map lower (List.map strip (split_str comma (strip resp_content))))).
    - generalize (split_str comma (strip resp_content)) as l.
      induction l as [|p l IH]; [reflexivity|].
      cbn. rewrite truthy_lower. destruct (truthy (strip p)); cbn; now rewrite IH.
    - rewrite split_str_strip by reflexivity. rewrite List.map_map. do 1 f_equal.
      apply map_ext. intros p. now rewrite strip_lower. }
  rewrite Hparts. now destruct (dedup_first _).
Qed.

Lemma keywords_spec_item (raw k : str) :
  In k (keywords_spec raw) ->
  exists p, k = strip (lower p) /\ k <> [].
Proof.
  unfold keywords_spec. intros Hin.
  apply take_In, dedup_first_In, filter_In in Hin as [Hin Hk].
  apply in_map_iff in Hin as (p & <- & _). exists p. split; [reflexivity|].
  intros Heq. rewrite Heq in Hk. discriminate.
Qed.

(** The parsed keywords: at most five, lowercase, trimmed, non-empty and
    pairwise distinct. *)
Lemma keywords_spec_shape (raw : str) :
  length (keywords_spec raw) <= 5
  /\ Forall lowercase (keywords_spec raw)
  /\ Forall trimmed (keywords_spec raw)
  /\ List.NoDup (keywords_spec raw).
Proof.
  split; [|split; [|split]].
  - unfold keywords_spec. rewrite length_take. lia.
  - apply List.Forall_forall. intros k Hk.
    destruct (keywords_spec_item raw k Hk) as (p & -> & _).
    unfold lowercase. rewrite <- strip_lower. now autorewrite with pystr.
  - apply List.Forall_forall. intros k Hk.
    destruct (keywords_spec_item raw k Hk) as (p & -> & _).
    unfold trimmed. now autorewrite with pystr.
  - unfold keywords_spec. apply take_NoDup, dedup_first_NoDup.
Qed.

(** ** Keywords of an upload *)

Lemma keywords_spec_none (raw : str) :
  Forall (fun p => strip p = []) (split_str comma raw) ->
  keywords_spec raw = [].
Proof.
  unfold keywords_spec. intros Hall.
  induction Hall as [|p l Hp Hl IH]; [reflexivity|].
  cbn. rewrite strip_lower, Hp. cbn. exact IH.
Qed.

Lemma proposal_is_not_description (b b' : string) (k : list str) :
  proposal_messages b <> description_messages b' k.
Proof.
  unfold proposal_messages, description_messages. intros H.
  injection H as Hsys _. vm_compute in Hsys. discriminate.
Qed.

Lemma keyword_given (keyword : str) :
  strip keyword <> [] ->
  (truthy keyword && truthy (strip keyword))%bool = true.
Proof.
  intros Hk. assert (Ht : truthy (strip keyword) = true).
  { destruct (truthy (strip keyword)) eqn:Ht; [reflexivity|].
    now apply truthy_false in Ht. }
  now rewrite Ht, (truthy_strip keyword Ht).
Qed.

Lemma keyword_blank (keyword : str) :
  strip keyword = [] ->
  (truthy keyword && truthy (strip keyword))%bool = false.
Proof. intros ->. apply andb_false_r. Qed.

(** C4: an upload with a supported content type, a file name, a writable
    temporary path and a decodable image, whose keyword is empty or only
    whitespace, and for which both model calls answer, succeeds; its keywords
    are the items of the proposal answer split at commas, each lowercased and
    trimmed, empty items dropped, duplicates dropped keeping the first
    occurrence, cut to five.  They are at most five, lowercase, trimmed and
    pairwise distinct, and they are the empty list when no item is usable. *)
Theorem analyze_proposes_keywords (env : Env) (image : UploadFile)
  (keyword : str) (w : World) (name b64 : string) (raw d : str) :
  content_type image = Some "image/jpeg"
  \/ content_type image = Some "image/jpg"
  \/ content_type image = Some "image/png" ->
  filename image = Some name ->
  can_write env (temp_path env (uuid4 env +:+ "." +:+ last_item (split dot name)))
  = true ->
  copy_fails_after env
    (temp_path env (uuid4 env +:+ "." +:+ last_item (split dot name)))
  = None ->
  png_b64 env (file image) = Some b64 ->
  strip keyword = [] ->
  llm_invoke env (proposal_messages b64) = Some raw ->
  llm_invoke env (description_messages b64 (keywords_spec raw)) = Some d ->
  fst (analyze_image env image keyword w)
  = Ok (mkAnalysisResponse (uuid4 env) (keywords_spec raw) (strip d))
  /\ length (keywords_spec raw) <= 5
  /\ Forall lowercase (keywords_spec raw)
  /\ Forall trimmed (keywords_spec raw)
  /\ List.NoDup (keywords_spec raw)
  /\ (Forall (fun p => strip p = []) (split_str comma raw) ->
      keywords_spec raw = []).
Proof.
  intros Hct Hname Hwrite Hcopy Hpng Hblank Hprop Hdesc.
  split; [|split; [apply keywords_spec_shape|]].
  - unfold analyze_image.
    rewrite (proj2 (unsupported_spec _) Hct), Hname, (keyword_blank _ Hblank).
    unfold_m. rewrite Hwrite, Hcopy. cbn [sessions temp_files llm_calls].
    rewrite lookup_insert_eq, Hpng, Hprop, parse_keywords_spec, Hdesc.
    reflexivity.
  - pose proof (keywords_spec_shape raw) as (_ & Hl & Ht & Hn).
    repeat split; try assumption. apply keywords_spec_none.
Qed.

Lemma analyze_proposes_keywords_witness :
  fst (analyze_image (answering_env "s7" cafe_answer) sample_png blank_keyword world1)
  = Ok (mkAnalysisResponse "s7" [u "caf" ++ [233%N]; u "trip hazard"]
          (strip cafe_answer)).
Proof.
  destruct (analyze_proposes_keywords (answering_env "s7" cafe_answer)
              sample_png blank_keyword world1 "site.png" "aW1n"
              cafe_answer cafe_answer
              (or_intror (or_intror eq_refl)) eq_refl eq_refl eq_refl eq_refl
              ltac:(vm_compute; reflexivity) eq_refl eq_refl) as [H _].
  rewrite H. vm_compute. reflexivity.
Defined.

(** C5: (1) an upload with a supported content type, a file name, a writable
    temporary path and a decodable image, whose keyword is non-empty after
    trimming, and for which the description call answers, succeeds with
    keywords equal to the one-element list of the trimmed, lowercased keyword;
    the only payload it hands to the model is the description payload.
    (2) Whatever else happens to an upload with such a keyword, none of the
    payloads it hands to the model is a keyword-proposal payload. *)
Theorem analyze_with_user_keyword :
  (forall env image keyword w name b64 d,
      content_type image = Some "image/jpeg"
      \/ content_type image = Some "image/jpg"
      \/ content_type image = Some "image/png" ->
      filename image = Some name ->
      can_write env (temp_path env (uuid4 env +:+ "." +:+ last_item (split dot name)))
      = true ->
      copy_fails_after env
        (temp_path env (uuid4 env +:+ "." +:+ last_item (split dot name)))
      = None ->
      png_b64 env (file image) = Some b64 ->
      strip keyword <> [] ->
      llm_invoke env (description_messages b64 [lower (strip keyword)]) = Some d ->
      fst (analyze_image env image keyword w)
      = Ok (mkAnalysisResponse (uuid4 env) [lower (strip keyword)] (strip d))
      /\ llm_calls (snd (analyze_image env image keyword w))
         = llm_calls w ++ [description_messages b64 [lower (strip keyword)]])
  /\ (forall env image keyword w,
         strip keyword <> [] ->
         exists new,
           llm_calls (snd (analyze_image env image keyword w)) = llm_calls w ++ new
           /\ forall b, ~ In (proposal_messages b) new).
Proof.
  split.
  - intros env image keyword w name b64 d Hct Hname Hwrite Hcopy Hpng Hkw Hdesc.
    unfold analyze_image.
    rewrite (proj2 (unsupported_spec _) Hct), Hname, (keyword_given _ Hkw).
    unfold_m. rewrite Hwrite, Hcopy. cbn [sessions temp_files llm_calls].
    rewrite lookup_insert_eq, Hpng. cbn [fst snd]. rewrite Hdesc.
    split; reflexivity.
  - intros env image keyword w Hkw. unfold analyze_image.
    rewrite (keyword_given _ Hkw).
    destruct (unsupported (content_type image));
      [exists []; split; [symmetry; apply app_nil_r | easy]|].
    unfold_m. destruct (filename image);
      [|exists []; split; [symmetry; apply app_nil_r | easy]].
    destruct (can_write env _);
      [|exists []; split; [symmetry; apply app_nil_r | easy]].
    destruct (copy_fails_after env _);
      [exists []; split; [symmetry; apply app_nil_r | easy]|].
    cbn [sessions temp_files llm_calls]. rewrite lookup_insert_eq.
    destruct (png_b64 env (file image)) as [b64|];
      [|exists []; split; [symmetry; apply app_nil_r | easy]].
    exists [description_messages b64 [lower (strip keyword)]].
    split.
    + now destruct (llm_invoke env _).
    + intros b [H | []]. symmetry in H. now apply proposal_is_not_description in H.
Qed.

Lemma analyze_with_user_keyword_witness :
  fst (analyze_image (sample_env "s7" " A worker without a helmet. ")
         sample_png scaffold_keyword world1)
  = Ok (mkAnalysisResponse "s7" [233%N :: u "chafaudage"]
          (u "A worker without a helmet.")).
Proof.
  destruct (proj1 analyze_with_user_keyword
              (sample_env "s7" " A worker without a helmet. ")
              sample_png scaffold_keyword world1 "site.png" "aW1n"
              (u " A worker without a helmet. ")
              (or_intror (or_intror eq_refl)) eq_refl eq_refl eq_refl eq_refl
              ltac:(vm_compute; discriminate) eq_refl) as [H _].
  rewrite H. vm_compute. reflexivity.
Defined.
(** ** The upload handler, case by case *)

Lemma analyze_image_cases (env : Env) (image : UploadFile) (keyword : str)
  (w : World) :
  analyze_image env image keyword w
  = if unsupported (content_type image)
    then (Raise (HTTPException 400 "Only JPG and PNG images are supported"), w)
    else
      match filename image with
      | None => (Raise AttributeError, w)
      | Some name =>
          if can_write env (upload_path env name)
          then
            match copy_fails_after env (upload_path env name) with
            | Some n => (Raise OSError, interrupted env image name n w)
            | None =>
                match png_b64 env (file image) with
                | None => (Raise ImageError, written env image name w)
                | Some b =>
                    if keyword_supplied keyword
                    then describe_and_store env name b [lower (strip keyword)]
                           (written env image name w)
                    else
                      match llm_invoke env (proposal_messages b) with
                      | None =>
                          (Raise ModelError,
                           logged (written env image name w) (proposal_messages b))
                      | Some raw =>
                          describe_and_store env name b (parse_keywords raw)
                            (logged (written env image name w)
                               (proposal_messages b))
                      end
                end
            end
          else (Raise OSError, w)
      end.
Proof.
  unfold analyze_image, keyword_supplied, describe_and_store, upload_path,
    file_extension.
  destruct (unsupported (content_type image)); [reflexivity|].
  unfold_m. destruct (filename image) as [name|]; [|reflexivity].
  destruct (can_write env _); [|reflexivity].
  destruct (copy_fails_after env _); [reflexivity|].
  cbn [sessions temp_files llm_calls]. rewrite lookup_insert_eq.
  destruct (png_b64 env (file image)) as [b|]; [|reflexivity].
  destruct (truthy keyword && truthy (strip keyword))%bool.
  - now destruct (llm_invoke env _).
  - destruct (llm_invoke env (proposal_messages b)) as [raw|]; [|reflexivity].
    cbn [fst snd]. now destruct (llm_invoke env _).
Qed.

Ltac analyze_by_cases :=
  rewrite analyze_image_cases; unfold describe_and_store;
  repeat match goal with
         | |- context [if ?b then _ else _] => destruct b eqn:?
         | |- context [match ?o with Some _ => _ | None => _ end] =>
             destruct o eqn:?
         end;
  cbn [fst snd sessions temp_files llm_calls written interrupted stored logged].

Lemma analyze_failed_sessions (env : Env) (image : UploadFile) (keyword : str)
  (w : World) (e : Exn) :
  fst (analyze_image env image keyword w) = Raise e ->
  sessions (snd (analyze_image env image keyword w)) = sessions w.
Proof. analyze_by_cases; intros [= <-]; reflexivity. Qed.

(** ** Failed uploads *)

(** X1: an upload that fails, for whatever reason, stores no session: the
    table is the one before the request.  When it is refused with an HTTP
    error or for a missing file name, nothing at all has changed.  When it
    fails on the file, no model call has been made and either nothing has
    changed (the file could not be opened) or only the upload path has, which
    holds the bytes that were copied before the copy was interrupted. *)
Theorem analyze_failure_stores_nothing (env : Env) (image : UploadFile)
  (keyword : str) (w : World) (e : Exn) :
  fst (analyze_image env image keyword w) = Raise e ->
  let w' := snd (analyze_image env image keyword w) in
  sessions w' = sessions w
  /\ match e with
     | HTTPException _ _ | AttributeError => w' = w
     | OSError =>
         llm_calls w' = llm_calls w
         /\ (w' = w
             \/ exists name n,
                  filename image = Some name
                  /\ copy_fails_after env (upload_path env name) = Some n
                  /\ temp_files w'
                     = <[upload_path env name := take n (file image)]>
                         (temp_files w))
     | ImageError | ModelError => True
     end.
Proof.
  analyze_by_cases; intros [= <-]; (split; [reflexivity|]);
    try exact I; try reflexivity.
  all: split; [reflexivity|]; first [now left | right; eauto].
Qed.

Lemma analyze_failure_stores_nothing_witness :
  sessions (snd (analyze_image (failing_env "s7") sample_png [] world1))
  = sessions world1
  /\ sessions (snd (analyze_image (interrupted_env "s7") sample_png [] world1))
     = sessions world1.
Proof.
  split.
  - apply (analyze_failure_stores_nothing (failing_env "s7") sample_png [] world1
             ModelError).
    vm_compute. reflexivity.
  - apply (analyze_failure_stores_nothing (interrupted_env "s7") sample_png []
             world1 OSError).
    vm_compute. reflexivity.
Defined.

(** X2: when the upload fails because the image cannot be decoded or because
    a model call fails, the uploaded bytes have already been written under the
    upload path and stay there, though no session refers to them. *)
Theorem analyze_failure_leaves_file (env : Env) (image : UploadFile)
  (keyword : str) (w : World) (e : Exn) :
  fst (analyze_image env image keyword w) = Raise e ->
  e = ImageError \/ e = ModelError ->
  exists name,
    filename image = Some name
    /\ temp_files (snd (analyze_image env image keyword w))
       = <[upload_path env name := file image]> (temp_files w)
    /\ temp_files (snd (analyze_image env image keyword w)) !! upload_path env name
       = Some (file image)
    /\ sessions (snd (analyze_image env image keyword w)) !! uuid4 env
       = sessions w !! uuid4 env.
Proof.
  analyze_by_cases; intros [= <-] [He | He]; try discriminate;
    eexists; (split; [reflexivity|]); (split; [reflexivity|]);
    (split; [apply lookup_insert_eq | reflexivity]).
Qed.

Lemma analyze_failure_leaves_file_witness :
  temp_files (snd (analyze_image (undecodable_env "s7") sample_png [] world1))
    !! "temp_images/s7.png"
  = Some (file sample_png)
  /\ sessions (snd (analyze_image (undecodable_env "s7") sample_png [] world1))
       !! "s7" = None.
Proof.
  destruct (analyze_failure_leaves_file (undecodable_env "s7") sample_png []
              world1 ImageError ltac:(vm_compute; reflexivity) (or_introl eq_refl))
    as (name & Hname & _ & Hfile & Hsess).
  injection Hname as <-. split; [exact Hfile|].
  transitivity (sessions world1 !! "s7"); [exact Hsess | vm_compute; reflexivity].
Defined.

(** ** Successful uploads *)

(** X3: after a successful upload the stored session is backed by its file:
    the file at the session's [image_path] holds exactly the uploaded bytes,
    and the session's [image_b64] is the normalization of those bytes. *)
Theorem analyze_success_backs_session (env : Env) (image : UploadFile)
  (keyword : str) (w : World) (r : AnalysisResponse) :
  fst (analyze_image env image keyword w) = Ok r ->
  exists s,
    sessions (snd (analyze_image env image keyword w)) !! resp_session_id r = Some s
    /\ temp_files (snd (analyze_image env image keyword w)) !! image_path s
       = Some (file image)
    /\ png_b64 env (file image) = Some (image_b64 s)
    /\ chat_history s = [].
Proof.
  analyze_by_cases; intros [= <-]; cbn [resp_session_id];
    rewrite lookup_insert_eq; eexists; (split; [reflexivity|]);
    cbn [image_path image_b64 chat_history];
    (split; [apply lookup_insert_eq|]); split; reflexivity.
Qed.

Lemma analyze_success_backs_session_witness :
  exists s,
    sessions world1 !! "s1" = Some s
    /\ temp_files world1 !! image_path s = Some (file sample_png).
Proof.
  destruct (analyze_success_backs_session
              (sample_env "s1" " Worker without a helmet. ") sample_png
              (u "no helmet") init_world
              (mkAnalysisResponse "s1" [u "no helmet"] (u "Worker without a helmet."))
              ltac:(vm_compute; reflexivity)) as (s & Hs & Hf & _).
  exists s. split; [exact Hs | exact Hf].
Defined.

(** X4: an upload touches nothing but its own identifier and its own path:
    every session under another identifier and every file under another path
    is as before, whether the upload succeeds or fails. *)
Theorem analyze_frame (env : Env) (image : UploadFile) (keyword : str)
  (w : World) :
  (forall sid, sid <> uuid4 env ->
               sessions (snd (analyze_image env image keyword w)) !! sid
               = sessions w !! sid)
  /\ (forall path,
         (forall name, filename image = Some name -> path <> upload_path env name) ->
         temp_files (snd (analyze_image env image keyword w)) !! path
         = temp_files w !! path).
Proof.
  split.
  - intros sid Hsid. analyze_by_cases; try reflexivity;
      now rewrite lookup_insert_ne by congruence.
  - intros path. analyze_by_cases; intros Hpath; try reflexivity;
      rewrite lookup_insert_ne; try reflexivity; intros Heq; now apply (Hpath _ eq_refl).
Qed.

Lemma analyze_frame_witness :
  sessions (snd (analyze_image (sample_env "s7" "ok") sample_png [] world1)) !! "s1"
  = sessions world1 !! "s1".
Proof.
  apply (proj1 (analyze_frame (sample_env "s7" "ok") sample_png [] world1)).
  discriminate.
Defined.

Lemma normal_user_keyword (keyword : str) :
  keyword_supplied keyword = true -> normal_keywords [lower (strip keyword)].
Proof.
  unfold keyword_supplied. intros Hk. apply andb_prop in Hk as [_ Hk].
  split; [cbn; lia|]. split; [|repeat constructor; easy].
  constructor; [|constructor]. split; [|split].
  - intros Hempty. rewrite <- truthy_lower, Hempty in Hk. discriminate.
  - unfold lowercase. apply lower_idem.
  - unfold trimmed. now rewrite strip_lower, strip_idem.
Qed.

Lemma normal_parsed_keywords (raw : str) : normal_keywords (parse_keywords raw).
Proof.
  rewrite parse_keywords_spec.
  destruct (keywords_spec_shape raw) as (Hlen & Hlow & Htrim & Hnodup).
  split; [exact Hlen|]. split; [|exact Hnodup].
  apply List.Forall_forall. intros k Hk.
  rewrite List.Forall_forall in Hlow, Htrim.
  destruct (keywords_spec_item raw k Hk) as (p & _ & Hne).
  split; [exact Hne|]. split; [now apply Hlow | now apply Htrim].
Qed.

Lemma analyze_ok_normal (env : Env) (image : UploadFile) (keyword : str)
  (w : World) (r : AnalysisResponse) :
  fst (analyze_image env image keyword w) = Ok r ->
  resp_session_id r = uuid4 env
  /\ normal_keywords (resp_keywords r)
  /\ trimmed (resp_description r).
Proof.
  rewrite analyze_image_cases. unfold describe_and_store.
  destruct (unsupported _); [discriminate|].
  destruct (filename image); [|discriminate].
  destruct (can_write env _); [|discriminate].
  destruct (copy_fails_after env _); [discriminate|].
  destruct (png_b64 env _); [|discriminate].
  destruct (keyword_supplied keyword) eqn:Hk.
  - destruct (llm_invoke env _); [|discriminate]. intros [= <-]. cbn.
    split; [reflexivity|]. split; [now apply normal_user_keyword | apply strip_idem].
  - destruct (llm_invoke env (proposal_messages _)); [|discriminate].
    destruct (llm_invoke env _); [|discriminate]. intros [= <-]. cbn.
    split; [reflexivity|]. split; [apply normal_parsed_keywords | apply strip_idem].
Qed.

(** X5: whichever way the keywords were obtained, a successful upload returns
    the identifier it drew, at most five keywords that are non-empty,
    lowercase, trimmed and pairwise distinct, and a description without
    leading or trailing whitespace; the keywords are the user's keyword alone
    when one was supplied and the parsed proposal of the model otherwise. *)
Theorem analyze_response_shape (env : Env) (image : UploadFile) (keyword : str)
  (w : World) (r : AnalysisResponse) :
  fst (analyze_image env image keyword w) = Ok r ->
  resp_session_id r = uuid4 env
  /\ normal_keywords (resp_keywords r)
  /\ trimmed (resp_description r)
  /\ (if keyword_supplied keyword
      then resp_keywords r = [lower (strip keyword)]
      else exists b raw,
             png_b64 env (file image) = Some b
             /\ llm_invoke env (proposal_messages b) = Some raw
             /\ resp_keywords r = parse_keywords raw).
Proof.
  intros Hok. destruct (analyze_ok_normal env image keyword w r Hok) as (H1 & H2 & H3).
  repeat (split; [assumption|]). revert Hok.
  rewrite analyze_image_cases. unfold describe_and_store.
  destruct (unsupported _); [discriminate|].
  destruct (filename image); [|discriminate].
  destruct (can_write env _); [|discriminate].
  destruct (copy_fails_after env _); [discriminate|].
  destruct (png_b64 env _) as [b|]; [|discriminate].
  destruct (keyword_supplied keyword).
  - destruct (llm_invoke env _); [|discriminate]. intros [= Hr]. now rewrite <- Hr.
  - destruct (llm_invoke env (proposal_messages b)) as [raw|] eqn:Hraw;
      [|discriminate].
    destruct (llm_invoke env (description_messages _ _)); [|discriminate].
    intros [= Hr]. rewrite <- Hr. now exists b, raw.
Qed.

Lemma analyze_response_shape_witness :
  normal_keywords [u "no helmet"] /\ trimmed (u "Worker without a helmet.").
Proof.
  destruct (analyze_response_shape (sample_env "s1" " Worker without a helmet. ")
              sample_png (u "no helmet") init_world
              (mkAnalysisResponse "s1" [u "no helmet"] (u "Worker without a helmet."))
              ltac:(vm_compute; reflexivity)) as (_ & Hk & Hd & _).
  split; [exact Hk | exact Hd].
Defined.

(** ** Invariants of the session table *)

(** Where a session found after a request comes from: it was there before with
    the same analysis, or the request is a successful upload that created it. *)
Lemma after_session_origin (w : World) (er : Env * Request) (sid : string)
  (s' : SessionData) :
  sessions (after w er) !! sid = Some s' ->
  (exists s, sessions w !! sid = Some s /\ same_analysis s s')
  \/ (exists image keyword r p b,
         snd er = Analyze image keyword
         /\ fst (analyze_image (fst er) image keyword w) = Ok r
         /\ sid = resp_session_id r
         /\ s' = mkSession sid p b (resp_keywords r) (resp_description r) []).
Proof.
  intros Hs'. destruct (creates sid er) eqn:Hc.
  - destruct er as [env [image keyword | request | sid0]]; try discriminate.
    unfold creates in Hc. cbn in Hc. apply String.eqb_eq in Hc.
    unfold after, handle in Hs'. cbn [fst snd] in Hs'. rewrite lift_snd in Hs'.
    destruct (fst (analyze_image env image keyword w)) as [r|e] eqn:Hr.
    + right. destruct (analyze_ok env image keyword w r Hr) as [Hid (p & b & _ & Hnew)].
      rewrite Hc in Hnew. rewrite Hnew in Hs'. injection Hs' as <-.
      exists image, keyword, r, p, b. cbn [fst snd]. rewrite Hid, Hc. auto.
    + left. pose proof (analyze_failed_sessions env image keyword w e Hr)
        as Hsame. rewrite Hsame in Hs'. exists s'. split; [exact Hs'|].
      now repeat split.
  - left. pose proof (after_lookup w er sid Hc) as H.
    destruct (sessions w !! sid) as [s|] eqn:Hs; [|congruence].
    exists s. split; [reflexivity|].
    destruct (chat_succeeds sid w er).
    + destruct H as [t Ht]. rewrite Ht in Hs'. injection Hs' as <-.
      now repeat split.
    + destruct H as [H | H]; rewrite H in Hs'; [|discriminate].
      injection Hs' as <-. now repeat split.
Qed.

(** X6: in every world reached from the empty table, every session is stored
    under its own identifier, its keywords are at most five, non-empty,
    lowercase, trimmed and pairwise distinct, and its description has no
    leading or trailing whitespace. *)
Theorem reachable_sessions_normal (trace : list (Env * Request)) :
  forall sid s,
    sessions (run init_world trace) !! sid = Some s ->
    session_id s = sid
    /\ normal_keywords (keywords s)
    /\ trimmed (description s).
Proof.
  induction trace as [|er trace IH] using rev_ind.
  - intros sid s Hs. cbn in Hs. rewrite lookup_empty in Hs. discriminate.
  - intros sid s' Hs'. rewrite run_app in Hs'. cbn in Hs'.
    destruct (after_session_origin _ _ _ _ Hs')
      as [(s & Hs & Hsame) | (image & keyword & r & p & b & _ & Hok & Hsid & Hnew)].
    + destruct (IH sid s Hs) as (Hid & Hk & Hd).
      destruct Hsame as (-> & _ & _ & -> & ->). auto.
    + destruct (analyze_ok_normal _ _ _ _ _ Hok) as (_ & Hk & Hd).
      rewrite Hnew. cbn. auto.
Qed.

Lemma reachable_sessions_normal_witness :
  exists s,
    sessions (run world1 sample_trace) !! "s1" = Some s
    /\ session_id s = "s1" /\ normal_keywords (keywords s).
Proof.
  eexists. split; [vm_compute; reflexivity|].
  destruct (reachable_sessions_normal
              ((sample_env "s1" " Worker without a helmet. ",
                Analyze sample_png (u "no helmet")) :: sample_trace)
              "s1" _ ltac:(vm_compute; reflexivity)) as (Hid & Hk & _).
  split; [exact Hid | exact Hk].
Defined.

(** ** Calls to the model *)

Lemma one_image_proposal (b : string) : one_image_payload (proposal_messages b) = true.
Proof. reflexivity. Qed.

Lemma one_image_description (b : string) (ks : list str) :
  one_image_payload (description_messages b ks) = true.
Proof. reflexivity. Qed.

Lemma one_image_chat (s : SessionData) (text : str) :
  one_image_payload (chat_messages s text) = true.
Proof.
  unfold one_image_payload.
  change (chat_messages s text)
    with (SystemMessage (Text CHAT_SYSTEM_PROMPT)
            :: [HumanMessage (Text (recap_text s))]
            ++ List.map replay_entry (chat_history s)
            ++ vision_messages_from_b64 (image_b64 s) text) at 1.
  now rewrite chat_messages_image.
Qed.

(** What one request adds to the log of model calls. *)
Lemma after_calls (w : World) (er : Env * Request) :
  exists new,
    llm_calls (after w er) = llm_calls w ++ new
    /\ length new <= call_budget (snd er)
    /\ forallb one_image_payload new = true.
Proof.
  destruct er as [env [image keyword | request | sid]];
    unfold after, handle; cbn [fst snd call_budget]; rewrite lift_snd.
  - rewrite analyze_image_cases. unfold describe_and_store.
    destruct (unsupported _); [exists []; rewrite app_nil_r; cbn; split; [easy | split; [lia | easy]]|].
    destruct (filename image); [|exists []; rewrite app_nil_r; cbn; split; [easy | split; [lia | easy]]].
    destruct (can_write env _); [|exists []; rewrite app_nil_r; cbn; split; [easy | split; [lia | easy]]].
    destruct (copy_fails_after env _); [exists []; rewrite app_nil_r; cbn; split; [easy | split; [lia | easy]]|].
    destruct (png_b64 env _) as [b|]; [|exists []; rewrite app_nil_r; cbn; split; [easy | split; [lia | easy]]].
    destruct (keyword_supplied keyword).
    + exists [description_messages b [lower (strip keyword)]].
      split; [now destruct (llm_invoke env _) | split; [cbn; lia | reflexivity]].
    + destruct (llm_invoke env (proposal_messages b)) as [raw|].
      * exists [proposal_messages b; description_messages b (parse_keywords raw)].
        split; [|split; [cbn; lia | reflexivity]].
        destruct (llm_invoke env _); cbn; now rewrite <- app_assoc.
      * exists [proposal_messages b]. split; [reflexivity | split; [cbn; lia | reflexivity]].
  - destruct (sessions w !! req_session_id request) as [s|] eqn:Hs.
    + rewrite (chat_existing env request w s Hs).
      exists [chat_messages s (message request)].
      split; [now destruct (llm_invoke env _)|]. split; [cbn; lia|].
      cbn [forallb]. now rewrite one_image_chat.
    + rewrite (chat_absent env request w Hs). exists []. cbn.
      rewrite app_nil_r. split; [easy | split; [lia | easy]].
  - exists []. rewrite app_nil_r. split; [|split; [cbn; lia | easy]].
    destruct (sessions w !! sid) as [s|] eqn:Hs.
    + rewrite (delete_existing env sid w s Hs).
      destruct (temp_files w !! image_path s); [destruct (can_remove env _)|];
        reflexivity.
    + now rewrite (delete_unknown env sid w Hs).
Qed.

(** X7: the log of model calls only grows, and by a bounded amount per
    request: a delete never calls the model; a chat call hands it exactly one
    payload when the session exists, also when the call then fails, and none
    when it does not; an upload hands it at most two payloads, and at most one
    when the user supplied a keyword. *)
Theorem model_calls_per_request (w : World) (env : Env) (req : Request) :
  match req with
  | Delete _ => llm_calls (after w (env, req)) = llm_calls w
  | Chat request =>
      llm_calls (after w (env, req))
      = llm_calls w
          ++ match sessions w !! req_session_id request with
             | Some s => [chat_messages s (message request)]
             | None => []
             end
  | Analyze _ keyword =>
      exists new,
        llm_calls (after w (env, req)) = llm_calls w ++ new
        /\ length new <= (if keyword_supplied keyword then 1 else 2)
  end.
Proof.
  destruct req as [image keyword | request | sid].
  - destruct (after_calls w (env, Analyze image keyword)) as (new & Hnew & Hlen & _).
    exists new. split; assumption.
  - unfold after, handle. cbn [fst snd]. rewrite lift_snd.
    destruct (sessions w !! req_session_id request) as [s|] eqn:Hs.
    + rewrite (chat_existing env request w s Hs). now destruct (llm_invoke env _).
    + rewrite (chat_absent env request w Hs). cbn. now rewrite app_nil_r.
  - destruct (after_calls w (env, Delete sid)) as (new & Hnew & Hlen & _).
    cbn in Hlen. destruct new; [|cbn in Hlen; lia]. now rewrite app_nil_r in Hnew.
Qed.

(** X8: every payload ever handed to the model, in any run from the empty
    table, opens with a plain-text system message and carries exactly one
    image. *)
Theorem reachable_payloads_one_image (trace : list (Env * Request)) :
  forallb one_image_payload (llm_calls (run init_world trace)) = true.
Proof.
  induction trace as [|er trace IH] using rev_ind; [reflexivity|].
  rewrite run_app.
  change (run (run init_world trace) [er]) with (after (run init_world trace) er).
  destruct (after_calls (run init_world trace) er) as (new & -> & _ & Hnew).
  now rewrite forallb_app, IH, Hnew.
Qed.

(** ** Chat calls *)

(** X9: a chat call touches no file and no session but the one it addresses,
    whether it succeeds or fails. *)
Theorem chat_frame (env : Env) (request : ChatRequest) (w : World) :
  temp_files (snd (chat_about_image env request w)) = temp_files w
  /\ forall sid, sid <> req_session_id request ->
                 sessions (snd (chat_about_image env request w)) !! sid
                 = sessions w !! sid.
Proof.
  destruct (sessions w !! req_session_id request) as [s|] eqn:Hs.
  - rewrite (chat_existing env request w s Hs).
    destruct (llm_invoke env _); cbn; (split; [reflexivity|]); intros sid Hsid;
      [now rewrite lookup_insert_ne by congruence | reflexivity].
  - rewrite (chat_absent env request w Hs). now split.
Qed.

Lemma chat_frame_witness :
  sessions (snd (chat_about_image (sample_env "s9" "No.")
                   (mkChatRequest "other" (u "Any hazard?")) world2)) !! "s1"
  = sessions world2 !! "s1".
Proof.
  apply (proj2 (chat_frame (sample_env "s9" "No.")
                  (mkChatRequest "other" (u "Any hazard?")) world2)).
  discriminate.
Defined.

(** X10: the text a successful chat call returns is the model's answer with
    leading and trailing whitespace removed; it is the content of the last
    entry of the stored history, the entry before it holds the user's message
    unchanged, and the history returned is the history stored.  Everything
    else in the session is as before. *)
Theorem chat_response_is_stored (env : Env) (request : ChatRequest) (w : World)
  (session : SessionData) (resp : ChatResponse) :
  sessions w !! req_session_id request = Some session ->
  fst (chat_about_image env request w) = Ok resp ->
  exists answer session',
    llm_invoke env (chat_messages session (message request)) = Some answer
    /\ response resp = strip answer
    /\ trimmed (response resp)
    /\ sessions (snd (chat_about_image env request w)) !! req_session_id request
       = Some session'
    /\ resp_chat_history resp = chat_history session'
    /\ same_analysis session session'
    /\ List.last (chat_history session') (mkEntry "" [])
       = mkEntry "assistant" (response resp)
    /\ List.last (List.removelast (chat_history session')) (mkEntry "" [])
       = mkEntry "user" (message request).
Proof.
  intros Hs. rewrite (chat_existing env request w session Hs).
  destruct (llm_invoke env _) as [c|]; [|discriminate].
  cbn. intros [= <-]. cbn.
  exists c, (append_turn session (message request) (strip c)).
  split; [reflexivity|]. split; [reflexivity|]. split; [apply strip_idem|].
  split; [apply lookup_insert_eq|]. split; [reflexivity|].
  split; [now repeat split|]. cbn.
  change (chat_history session ++ [mkEntry "user" (message request);
                                   mkEntry "assistant" (strip c)])
    with (chat_history session
            ++ [mkEntry "user" (message request)] ++ [mkEntry "assistant" (strip c)]).
  rewrite app_assoc. split.
  - apply last_last.
  - rewrite removelast_last. apply last_last.
Qed.

Lemma chat_response_is_stored_witness :
  exists resp,
    fst (chat_about_image (answering_env "s9" (u "  A ladder." ++ [160%N]))
           (mkChatRequest "s1" (u "What else?")) world2) = Ok resp
    /\ response resp = u "A ladder.".
Proof.
  eexists. split; [vm_compute; reflexivity|].
  destruct (chat_response_is_stored (answering_env "s9" (u "  A ladder." ++ [160%N]))
              (mkChatRequest "s1" (u "What else?")) world2 session2 _
              ltac:(vm_compute; reflexivity) ltac:(vm_compute; reflexivity))
    as (answer & s' & Hans & Hresp & _).
  cbn in Hans. injection Hans as <-. rewrite Hresp. vm_compute. reflexivity.
Defined.

(** ** Deleting sessions *)

(** X11: a successful delete returns the confirmation text, removes exactly
    the addressed record from the table and exactly its image file from disk
    (which afterwards does not exist), and leaves the log of model calls
    alone. *)
Theorem delete_success_effect (env : Env) (sid : string) (w : World) (msg : string) :
  fst (delete_session env sid w) = Ok msg ->
  exists s,
    sessions w !! sid = Some s
    /\ msg = "Session deleted successfully"
    /\ sessions (snd (delete_session env sid w)) = delete sid (sessions w)
    /\ temp_files (snd (delete_session env sid w))
       = delete (image_path s) (temp_files w)
    /\ temp_files (snd (delete_session env sid w)) !! image_path s = None
    /\ llm_calls (snd (delete_session env sid w)) = llm_calls w.
Proof.
  destruct (sessions w !! sid) as [s|] eqn:Hs.
  - rewrite (delete_existing env sid w s Hs).
    destruct (temp_files w !! image_path s) eqn:Hf; [destruct (can_remove env _)|];
      cbn; try discriminate; intros [= <-]; exists s;
      do 3 (split; [reflexivity|]).
    + split; [reflexivity|]. split; [apply lookup_delete_eq | reflexivity].
    + split; [now rewrite delete_id|]. split; [exact Hf | reflexivity].
  - rewrite (delete_unknown env sid w Hs). discriminate.
Qed.

Lemma delete_success_effect_witness :
  temp_files (snd (delete_session (sample_env "s9" "") "s1" world2))
    !! "temp_images/s1.png" = None
  /\ sessions (snd (delete_session (sample_env "s9" "") "s1" world2))
     = delete "s1" (sessions world2).
Proof.
  destruct (delete_success_effect (sample_env "s9" "") "s1" world2
              "Session deleted successfully" ltac:(vm_compute; reflexivity))
    as (s & Hs & _ & Hsess & _ & Hfile & _).
  assert (Heq : s = session2)
    by (assert (H : Some s = Some session2)
          by (rewrite <- Hs; vm_compute; reflexivity); now injection H).
  subst s. split; [exact Hfile | exact Hsess].
Defined.

(** X12: when the image file exists but cannot be removed, the delete fails
    with the error of [os.remove] and the world is unchanged: the session
    record is kept, so the delete can be tried again. *)
Theorem delete_remove_failure_keeps_session (env : Env) (sid : string) (w : World)
  (s : SessionData) :
  sessions w !! sid = Some s ->
  is_Some (temp_files w !! image_path s) ->
  can_remove env (image_path s) = false ->
  delete_session env sid w = (Raise OSError, w).
Proof.
  intros Hs [data Hf] Hremove.
  now rewrite (delete_existing env sid w s Hs), Hf, Hremove.
Qed.

Lemma delete_remove_failure_keeps_session_witness :
  delete_session (readonly_env "s9") "s1" world2 = (Raise OSError, world2).
Proof.
  apply (delete_remove_failure_keeps_session (readonly_env "s9") "s1" world2 session2).
  - vm_compute. reflexivity.
  - eexists. vm_compute. reflexivity.
  - reflexivity.
Defined.

(** X13: an upload followed by the delete of the identifier it returned undoes
    itself: when the identifier and the upload path were free before the
    upload and the file can be removed, the delete succeeds and the session
    table and the files are exactly what they were before the upload; only
    the log of model calls has grown. *)
Theorem upload_then_delete_restores (env env' : Env) (image : UploadFile)
  (keyword : str) (w : World) (r : AnalysisResponse) (name : string) :
  fst (analyze_image env image keyword w) = Ok r ->
  filename image = Some name ->
  sessions w !! uuid4 env = None ->
  temp_files w !! upload_path env name = None ->
  can_remove env' (upload_path env name) = true ->
  let w1 := snd (analyze_image env image keyword w) in
  fst (delete_session env' (resp_session_id r) w1) = Ok "Session deleted successfully"
  /\ sessions (snd (delete_session env' (resp_session_id r) w1)) = sessions w
  /\ temp_files (snd (delete_session env' (resp_session_id r) w1)) = temp_files w.
Proof.
  intros Hok Hname Hfree Hpath Hremove w1. unfold w1. revert Hok.
  rewrite analyze_image_cases, Hname. unfold describe_and_store.
  destruct (unsupported _); [discriminate|].
  destruct (can_write env _); [|discriminate].
  destruct (copy_fails_after env _); [discriminate|].
  destruct (png_b64 env _) as [b|]; [|discriminate].
  destruct (keyword_supplied keyword);
    [|destruct (llm_invoke env (proposal_messages b)); [|discriminate]];
    (destruct (llm_invoke env (description_messages _ _)); [|discriminate]);
    intros [= <-]; cbn [fst snd resp_session_id];
    (erewrite delete_existing
       by (cbn [stored sessions]; apply lookup_insert_eq));
    cbn [image_path stored logged written sessions temp_files llm_calls];
    rewrite lookup_insert_eq, Hremove; cbn [fst snd sessions temp_files];
    rewrite !delete_insert_id by assumption; auto.
Qed.

Lemma upload_then_delete_restores_witness :
  sessions (snd (delete_session (sample_env "s9" "") "s7"
                   (snd (analyze_image (sample_env "s7" "ok") sample_png (u "kw") world2))))
  = sessions world2.
Proof.
  apply (upload_then_delete_restores (sample_env "s7" "ok") (sample_env "s9" "")
           sample_png (u "kw") world2 (mkAnalysisResponse "s7" [u "kw"] (u "ok")) "site.png");
    vm_compute; reflexivity.
Defined.

(** ** Splitting and joining *)

Section SplitJoin.

Variable sep : ascii.

Lemma split_cons (s : string) : exists h t, split sep s = h :: t.
Proof.
  destruct s as [|c s]; cbn; [eauto|].
  destruct (Ascii.eqb c sep); [eauto|]. destruct (split sep s); eauto.
Qed.

Lemma split_no_sep (s : string) : contains sep s = false -> split sep s = [s].
Proof.
  induction s as [|c s IH]; [reflexivity|].
  cbn. destruct (Ascii.eqb c sep); [discriminate|]. cbn. intros Hs.
  now rewrite (IH Hs).
Qed.

Lemma split_items_no_sep (s p : string) :
  In p (split sep s) -> contains sep p = false.
Proof.
  revert p. induction s as [|c s IH]; intros p.
  - cbn. now intros [<- | []].
  - cbn. destruct (Ascii.eqb c sep) eqn:Hc.
    + intros [<- | Hin]; [reflexivity | now apply IH].
    + destruct (split sep s) as [|h t].
      * intros [<- | []]. cbn. now rewrite Hc.
      * intros [<- | Hin]; [|apply IH; now right].
        cbn. rewrite Hc. apply IH. now left.
Qed.

(** [(a + sep + b).split(sep) == a.split(sep) + b.split(sep)] *)
Lemma split_app_sep (a b : string) :
  split sep (a +:+ String sep b) = split sep a ++ split sep b.
Proof.
  induction a as [|c a IH]; simpl.
  - now rewrite Ascii.eqb_refl.
  - destruct (Ascii.eqb c sep); [now rewrite IH|].
    rewrite IH. destruct (split_cons a) as (h & t & ->). reflexivity.
Qed.

Lemma last_item_app (l l' : list string) :
  l' <> [] -> last_item (l ++ l') = last_item l'.
Proof.
  intros Hl'. unfold last_item. induction l as [|x l IH]; [reflexivity|].
  cbn. destruct (l ++ l') eqn:Happ; [|exact IH].
  apply app_eq_nil in Happ as [_ ->]. contradiction.
Qed.

End SplitJoin.

(** X14: the extension [analyze_image] gives the temporary file is the part of
    the file name after its last dot, so it never contains a dot; a file name
    without any dot is its own extension. *)
Theorem file_extension_after_last_dot :
  (forall name, contains dot (file_extension name) = false)
  /\ (forall name, contains dot name = false -> file_extension name = name)
  /\ (forall base ext,
         contains dot ext = false -> file_extension (base +:+ "." +:+ ext) = ext).
Proof.
  unfold file_extension. split; [|split].
  - intros name. apply (split_items_no_sep dot name).
    destruct (split_cons dot name) as (h & t & ->). unfold last_item.
    clear. revert h. induction t as [|x t IH]; intros h; [now left|].
    right. apply IH.
  - intros name Hname. now rewrite split_no_sep.
  - intros base ext Hext.
    change (base +:+ "." +:+ ext) with (base +:+ String dot ext).
    rewrite split_app_sep, last_item_app; rewrite split_no_sep by assumption;
      [reflexivity | discriminate].
Qed.

Lemma file_extension_after_last_dot_witness :
  file_extension "site.photo.png" = "png" /\ file_extension "README" = "README".
Proof.
  split.
  - apply (proj2 (proj2 file_extension_after_last_dot) "site.photo" "png").
    reflexivity.
  - apply (proj1 (proj2 file_extension_after_last_dot)). reflexivity.
Defined.

(** ** Keywords and the comma *)

#[local] Arguments is_space : simpl never.

Lemma contains_cp_app (c : N) (x y : str) :
  contains_cp c (x ++ y) = (contains_cp c x || contains_cp c y)%bool.
Proof. apply existsb_app. Qed.

Lemma contains_do_lower (s : str) :
  contains_cp comma s = false ->
  forall before, contains_cp comma (do_lower before s) = false.
Proof.
  induction s as [|c s IH]; intros Hs before; [reflexivity|].
  cbn [do_lower]. unfold contains_cp in Hs. cbn [existsb] in Hs.
  apply orb_false_elim in Hs as [Hc Hs]. apply N.eqb_neq in Hc.
  rewrite contains_cp_app, lower_ucs4_comma by congruence.
  now apply IH.
Qed.

Lemma contains_lstrip (c : N) (s : str) :
  contains_cp c s = false -> contains_cp c (lstrip s) = false.
Proof.
  induction s as [|c' s IH]; [easy|].
  cbn [lstrip]. destruct (is_space c'); [|easy].
  unfold contains_cp. cbn [existsb]. intros H.
  apply orb_false_elim in H as [_ H]. now apply IH.
Qed.

Lemma contains_rstrip (c : N) (s : str) :
  contains_cp c s = false -> contains_cp c (rstrip s) = false.
Proof.
  induction s as [|c' s IH]; [easy|].
  unfold contains_cp. cbn [rstrip existsb]. intros H.
  apply orb_false_elim in H as [Hc H].
  destruct (is_space c' && is_empty (rstrip s))%bool; [reflexivity|].
  cbn [existsb]. rewrite Hc. now apply IH.
Qed.

Section SplitStrJoin.

Variable sep : N.

Lemma split_str_no_sep (s : str) :
  contains_cp sep s = false -> split_str sep s = [s].
Proof.
  induction s as [|c s IH]; [reflexivity|].
  unfold contains_cp. cbn [existsb split_str]. intros H.
  apply orb_false_elim in H as [Hc H]. rewrite N.eqb_sym in Hc.
  now rewrite Hc, (IH H).
Qed.

Lemma split_str_items_no_sep (s p : str) :
  In p (split_str sep s) -> contains_cp sep p = false.
Proof.
  revert p. induction s as [|c s IH]; intros p.
  - cbn. now intros [<- | []].
  - cbn [split_str]. destruct (c =? sep)%N eqn:Hc.
    + intros [<- | Hin]; [reflexivity | now apply IH].
    + rewrite N.eqb_sym in Hc. destruct (split_str sep s) as [|h t].
      * intros [<- | []]. unfold contains_cp. cbn [existsb]. now rewrite Hc.
      * intros [<- | Hin]; [|apply IH; now right].
        unfold contains_cp. cbn [existsb]. rewrite Hc. apply IH. now left.
Qed.

(** [(a + sep + b).split(sep) == a.split(sep) + b.split(sep)] *)
Lemma split_str_app_sep (a b : str) :
  split_str sep (a ++ sep :: b) = split_str sep a ++ split_str sep b.
Proof.
  induction a as [|c a IH]; cbn [app split_str].
  - now rewrite N.eqb_refl.
  - destruct (c =? sep)%N; [now rewrite IH|].
    rewrite IH. destruct (split_str_cons sep a) as (h & t & ->). reflexivity.
Qed.

End SplitStrJoin.

(** X15: no keyword parsed from the model's proposal contains a comma or is
    empty, so the comma-separated keyword text of the prompts is unambiguous. *)
Theorem parsed_keywords_have_no_comma (resp_content k : str) :
  In k (parse_keywords resp_content) ->
  contains_cp comma k = false /\ k <> [].
Proof.
  rewrite parse_keywords_spec. unfold keywords_spec. intros Hin.
  apply take_In, dedup_first_In, filter_In in Hin as [Hin Hk].
  apply in_map_iff in Hin as (p & <- & Hp). split.
  - unfold strip. apply contains_rstrip, contains_lstrip.
    apply contains_do_lower. eapply split_str_items_no_sep. eassumption.
  - intros Hempty. rewrite Hempty in Hk. discriminate.
Qed.

Lemma parsed_keywords_have_no_comma_witness :
  contains_cp comma (u "trip hazard") = false.
Proof.
  apply (parsed_keywords_have_no_comma cafe_answer (u "trip hazard")).
  vm_compute. auto.
Defined.

Lemma filter_all {A} (f : A -> bool) (l : list A) :
  Forall (fun x => f x = true) l -> List.filter f l = l.
Proof. induction 1 as [|x l Hx _ IH]; cbn; [|rewrite Hx, IH]; reflexivity. Qed.

Lemma dedup_first_NoDup_id (l : list str) : List.NoDup l -> dedup_first l = l.
Proof.
  induction 1 as [|x l Hx _ IH]; [reflexivity|].
  cbn. rewrite IH. f_equal. apply filter_all. apply List.Forall_forall.
  intros y Hy. apply negb_true_iff, str_eqb_neq. now intros ->.
Qed.

Lemma split_join (k : str) (ks : list str) :
  Forall (fun x => contains_cp comma x = false) (k :: ks) ->
  split_str comma (join (u ", ") (k :: ks)) = k :: List.map (cons 32%N) ks.
Proof.
  revert k. induction ks as [|k' ks IH]; intros k Hall.
  - cbn. apply split_str_no_sep. now inversion Hall.
  - inversion Hall as [|? ? Hk Hrest]; subst.
    change (join (u ", ") (k :: k' :: ks))
      with (k ++ comma :: 32%N :: join (u ", ") (k' :: ks)).
    rewrite split_str_app_sep, (split_str_no_sep comma k Hk).
    cbn [app split_str]. change (32 =? comma)%N with false. cbn iota.
    now rewrite (IH k' Hrest).
Qed.

Lemma strip_space_cons (s : str) : strip (32%N :: s) = strip s.
Proof. reflexivity. Qed.

Lemma normalize_spaced (k : str) :
  normal_keyword k ->
  strip (lower (32%N :: k)) = k /\ strip (lower k) = k.
Proof.
  intros (_ & Hlow & Htrim). unfold lowercase, trimmed in *.
  split.
  - now rewrite strip_lower, strip_space_cons, Htrim.
  - now rewrite strip_lower, Htrim.
Qed.

(** X16: the keyword text of the prompts parses back to the keywords: joining
    with ", " a list of at most five non-empty, lowercase, trimmed, comma-free,
    pairwise distinct keywords and parsing the result gives the list back.  In
    particular parsing is idempotent: re-parsing the joined keywords of any
    parsed answer changes nothing. *)
Theorem parse_join_roundtrip :
  (forall ks,
      normal_keywords ks ->
      Forall (fun k => contains_cp comma k = false) ks ->
      parse_keywords (join (u ", ") ks) = ks)
  /\ (forall resp_content,
         parse_keywords (join (u ", ") (parse_keywords resp_content))
         = parse_keywords resp_content).
Proof.
  assert (Hround : forall ks,
             normal_keywords ks ->
             Forall (fun k => contains_cp comma k = false) ks ->
             parse_keywords (join (u ", ") ks) = ks).
  { intros ks (Hlen & Hnormal & Hnodup) Hcomma.
    rewrite parse_keywords_spec. unfold keywords_spec.
    destruct ks as [|k ks]; [reflexivity|].
    rewrite (split_join k ks Hcomma).
    assert (Hmap : List.map (fun p => strip (lower p))
                     (k :: List.map (cons 32%N) ks) = k :: ks).
    { inversion Hnormal as [|? ? Hk Hks]; subst. cbn [List.map]. f_equal.
      - now apply normalize_spaced.
      - rewrite List.map_map. clear -Hks.
        induction Hks as [|x l Hx _ IH]; [reflexivity|].
        cbn [List.map]. f_equal; [now apply normalize_spaced | exact IH]. }
    rewrite Hmap, filter_all.
    - rewrite dedup_first_NoDup_id by assumption. now apply take_ge.
    - eapply List.Forall_impl; [|exact Hnormal]. intros x (Hx & _).
      destruct x; [contradiction | reflexivity]. }
  split; [exact Hround|].
  intros resp_content. apply Hround; [apply normal_parsed_keywords|].
  apply List.Forall_forall. intros k Hk.
  rewrite parse_keywords_spec in Hk. unfold keywords_spec in Hk.
  apply take_In, dedup_first_In, filter_In in Hk as [Hk _].
  apply in_map_iff in Hk as (p & <- & Hp).
  unfold strip. apply contains_rstrip, contains_lstrip.
  apply contains_do_lower. eapply split_str_items_no_sep. eassumption.
Qed.

Lemma parse_join_roundtrip_witness :
  parse_keywords (join (u ", ") [u "caf" ++ [233%N]; u "trip hazard"])
  = [u "caf" ++ [233%N]; u "trip hazard"].
Proof.
  apply (proj1 parse_join_roundtrip).
  - split; [cbn; lia|]. split.
    + repeat constructor; try discriminate; vm_compute; reflexivity.
    + repeat constructor; cbn; intuition discriminate.
  - repeat constructor.
Defined.

Lemma dedup_first_complete (x : str) (l : list str) :
  In x l -> In x (dedup_first l).
Proof.
  induction l as [|y l IH]; [easy|].
  cbn. destruct (str_eqb_spec x y) as [-> | Hne]; [now left|].
  intros [-> | Hin]; [contradiction|]. right.
  apply filter_In. split; [now apply IH|].
  now apply negb_true_iff, str_eqb_neq.
Qed.

Lemma take_keeps_or_full (x : str) (n : nat) (l : list str) :
  In x l -> In x (take n l) \/ length (take n l) = n.
Proof.
  intros Hin. destruct (Nat.le_gt_cases (length l) n) as [Hle | Hgt].
  - left. now rewrite take_ge.
  - right. rewrite length_take. lia.
Qed.

(** X17: truncation is the only way a usable item of the model's proposal is
    lost: every comma-separated item that is not blank appears among the
    parsed keywords in its trimmed, lowercased form, unless five keywords were
    kept. *)
Theorem usable_item_kept_or_five (resp_content p : str) :
  In p (split_str comma resp_content) ->
  strip p <> [] ->
  In (lower (strip p)) (parse_keywords resp_content)
  \/ length (parse_keywords resp_content) = 5.
Proof.
  intros Hp Hne. rewrite parse_keywords_spec. unfold keywords_spec.
  apply take_keeps_or_full, dedup_first_complete, filter_In. split.
  - rewrite <- strip_lower. apply in_map_iff. now exists p.
  - rewrite truthy_lower. destruct (strip p); [contradiction | reflexivity].
Qed.

Lemma usable_item_kept_or_five_witness :
  In (u "caf" ++ [233%N]) (parse_keywords cafe_answer)
  \/ length (parse_keywords cafe_answer) = 5.
Proof.
  apply (usable_item_kept_or_five cafe_answer (u "CAF" ++ [201%N])).
  - vm_compute. auto.
  - vm_compute. discriminate.
Defined.

(** ** Size of the chat payload *)

(** X18: the chat payload is never shortened: a chat call on a session holding
    a history of [n] entries sends [n + 3] messages, so for a session created by
    an upload the payload of the next chat call, after any run in which its
    identifier is not drawn again, has three messages plus two for every
    successful chat call made on it so far. *)
Theorem chat_payload_grows_with_history :
  (forall session text,
      length (chat_messages session text) = length (chat_history session) + 3)
  /\ (forall env image keyword w r trace s env' text,
         fst (analyze_image env image keyword w) = Ok r ->
         never_redrawn (resp_session_id r) trace = true ->
         let w1 := after w (env, Analyze image keyword) in
         sessions (run w1 trace) !! resp_session_id r = Some s ->
         exists payload,
           llm_calls (snd (chat_about_image env' (mkChatRequest (resp_session_id r) text)
                             (run w1 trace)))
           = llm_calls (run w1 trace) ++ [payload]
           /\ length payload = 3 + 2 * successful_chats (resp_session_id r) w1 trace).
Proof.
  assert (Hlen : forall session text,
             length (chat_messages session text) = length (chat_history session) + 3).
  { intros session text. unfold chat_messages, vision_messages_from_b64.
    rewrite !length_app, length_map. cbn. lia. }
  split; [exact Hlen|].
  intros env image keyword w r trace s env' text Hok Hfresh w1 Hs.
  destruct (analyze_ok env image keyword w r Hok) as [Hid (p & b & _ & Hnew)].
  assert (Hw1 : sessions w1 !! resp_session_id r
                = Some (mkSession (uuid4 env) p b (resp_keywords r)
                          (resp_description r) [])).
  { unfold w1, after, handle. cbn [fst snd]. now rewrite lift_snd, Hid. }
  destruct (run_present _ trace _ _ _ Hfresh Hw1 Hs) as [_ (turns & Hturns & Hhist)].
  exists (chat_messages s text).
  rewrite (chat_existing env' (mkChatRequest (resp_session_id r) text) _ s Hs).
  cbn [message req_session_id]. split; [now destruct (llm_invoke env' _)|].
  rewrite Hlen, Hhist. cbn [chat_history app]. rewrite turns_length, Hturns. lia.
Qed.

Lemma chat_payload_grows_with_history_witness :
  exists payload,
    llm_calls (snd (chat_about_image (sample_env "s9" "No.")
                      (mkChatRequest "s1" (u "And now?")) (run world1 sample_trace)))
    = llm_calls (run world1 sample_trace) ++ [payload]
    /\ length payload = 7.
Proof.
  destruct (proj2 chat_payload_grows_with_history
              (sample_env "s1" " Worker without a helmet. ") sample_png
              (u "no helmet") init_world
              (mkAnalysisResponse "s1" [u "no helmet"] (u "Worker without a helmet."))
              sample_trace _ (sample_env "s9" "No.") (u "And now?")
              ltac:(vm_compute; reflexivity) ltac:(vm_compute; reflexivity)
              ltac:(vm_compute; reflexivity)) as (payload & Hcalls & Hlen).
  exists payload. split; [exact Hcalls|].
  rewrite Hlen. vm_compute. reflexivity.
Defined.
